(** * wall_haven.py: a shallow embedding and its checked properties

    The script collects wallpaper identifiers from a search endpoint,
    records them in a flat ledger file, resolves every identifier to the
    location of its image and downloads the images through a thread pool.

    Python code that talks to the network, the clock, the log and the file
    system is embedded as a state-and-exception monad over an explicit
    world: the remote service is an oracle giving the outcome of the n-th
    call of [requests.get], the file system is a finite map from paths to
    contents, and everything observable the script does (requests issued,
    log entries, prints, sleeps, retrieved futures) is appended to a
    trace. *)

From Stdlib Require Import ZArith QArith String Ascii List Lia Bool.
From stdpp Require Import gmap strings list.

Local Open Scope string_scope.
Local Open Scope list_scope.
Local Open Scope Z_scope.

(** ** Python values the script handles *)

(** The exceptions that can travel through the script.  [ConnectionError],
    [Timeout], [HTTPError] and [OtherRequestException] are the subclasses of
    [requests.exceptions.RequestException]; the others are built-in. *)
Inductive exn : Type :=
| ConnectionError
| Timeout
| HTTPError (status : Z)
| OtherRequestException (what : string)
| AttributeError (what : string)
| KeyError (key : string)
| TypeError (what : string)
| ValueError (what : string)
| FileNotFoundError (path : string).

Definition is_RequestException (e : exn) : bool :=
  match e with
  | ConnectionError | Timeout | HTTPError _ | OtherRequestException _ => true
  | _ => false
  end.

(** The value of a query parameter: [parse_url_params] produces a string or
    a list of strings, the paginated collector stores an integer page. *)
Inductive pvalue : Type :=
| Scalar (s : string)
| Sequence (l : list string)
| IntVal (z : Z).

(** What evaluating an expression over [response.json()] gives: the value,
    or the exception the decoding or a subscript raised. *)
Inductive decoded (A : Type) : Type :=
| Decoded (a : A)
| Undecodable (e : exn).
Arguments Decoded {A} a.
Arguments Undecodable {A} e.

(** A [requests.Response], reduced to what the script reads from it.
    [json_ids] is the value of
    [[wallpaper['id'] for wallpaper in response.json()['data']]] and
    [json_path] the value of [response.json()['data']['path']]; [body] is
    the byte content a streamed read delivers. *)
Record Response : Type := mkResponse {
  status_code : Z;
  content_length : option Z;
  body : string;
  json_ids : decoded (list string);
  json_path : decoded string
}.

(** The module-level [proxies] dictionary. *)
Definition proxies : list (string * string) :=
  [("http", "127.0.0.1:18081"); ("https", "127.0.0.1:18081")].

(** The arguments of one [requests.get] call. *)
Record request : Type := mkRequest {
  req_url : string;
  req_params : option (gmap string pvalue);
  req_proxies : option (list (string * string));
  req_stream : bool
}.

(** What the network does with one call: a response comes back, or
    [requests.get] raises. *)
Inductive net_outcome : Type :=
| Responds (r : Response)
| Fails (e : exn).

(** ** Log messages, durations and the trace *)

Inductive level : Type := INFO | ERROR.

(** A number as the format [:.2f] prints it: a minus sign or none, and
    the digits, held as the count of hundredths.  Two sizes that print
    the same are the same value here. *)
Record two_decimals : Type := mkTwoDecimals {
  negative : bool;
  hundredths : Z
}.

(** Every f-string the script logs or prints, by its template and the
    values substituted into it. *)
Inductive message : Type :=
| MsgIdsFetched                                   (* 壁纸 ID 获取成功. *)
| MsgStatusFailed (status : Z)                    (* 请求失败，状态码：.. *)
| MsgPageFetched (page : Z)                       (* 第 .. 页的壁纸 ID 获取成功. *)
| MsgPageFailed (page : Z) (status : Z)           (* 请求第 .. 页时失败，状态码：.. *)
| MsgRequestFailed (e : exn)                      (* 请求失败: .. *)
| MsgImageSaved (filename : string) (size : two_decimals) (* 图片已保存为 ..，大小：.. MB *)
| MsgDownloadFailed (image_url : string)          (* 下载失败: .. *)
| MsgIdSaved (wallpaper_id filename : string)     (* 壁纸 ID .. 已保存到 .. *)
| MsgIdExists (wallpaper_id : string)             (* 壁纸 ID .. 已存在，未保存 *)
| MsgOriginalUrl (original_image_url : string)    (* 原图 URL: .. *)
| MsgImageExists (pic_filename : string)          (* 图片 .. 已存在，跳过下载。 *)
| MsgNoOriginalUrl                                (* 未能获取原图 URL *)
| MsgRateLimited (wait_time : Q)                  (* 收到 429 错误，等待 .. 秒后重试... *)
| MsgWaitRetry (wait_time : Q)                    (* 等待 .. 秒后重试... *)
| MsgGiveUp (retries : nat).                      (* 请求失败，已重试 .. 次，放弃。 *)

(** The argument of [time.sleep]: a computed number of seconds, or a draw
    of [random.uniform lo hi]. *)
Inductive duration : Type :=
| Seconds (s : Q)
| Uniform (lo hi : Q).

(** The outcome of one unit of work in the pool. *)
Inductive outcome : Type :=
| Completed
| Raised (e : exn).

Inductive event : Type :=
| EvRequest (rq : request)
| EvLog (lv : level) (msg : message)
| EvPrint (msg : message)
| EvSleep (d : duration)
| EvUnitDone (index : nat) (o : outcome)
| EvResult (index : nat) (o : outcome).

(** ** The world and the monad *)

Record world : Type := mkWorld {
  net : nat -> request -> net_outcome;
  calls : nat;
  fs : gmap string string;
  trace : list event
}.

Inductive result (A : Type) : Type :=
| Ok (a : A)
| Raise (e : exn).
Arguments Ok {A} a.
Arguments Raise {A} e.

Definition M (A : Type) : Type := world -> result A * world.

Definition ret {A} (a : A) : M A := fun w => (Ok a, w).

Definition raise {A} (e : exn) : M A := fun w => (Raise e, w).

Definition bind {A B} (m : M A) (k : A -> M B) : M B :=
  fun w =>
    match m w with
    | (Ok a, w') => k a w'
    | (Raise e, w') => (Raise e, w')
    end.

Notation "'let*' x ':=' m 'in' k" := (bind m (fun x => k))
  (at level 10, x name, m at level 100, k at level 200).
Notation "m ';;' k" := (bind m (fun _ => k))
  (at level 100, k at level 200, right associativity).

(** [try: m except e: h e]: a handler that answers [None] does not catch. *)
Definition try_except {A} (m : M A) (h : exn -> option (M A)) : M A :=
  fun w =>
    match m w with
    | (Ok a, w') => (Ok a, w')
    | (Raise e, w') =>
        match h e with
        | Some k => k w'
        | None => (Raise e, w')
        end
    end.

Definition emit (ev : event) : M unit :=
  fun w => (Ok tt, mkWorld (net w) (calls w) (fs w) (trace w ++ [ev])).

(** [log_and_print message level]: one entry in the log sink, mirrored on
    standard output. *)
Definition log_and_print (msg : message) (lv : level) : M unit :=
  emit (EvLog lv msg).

Definition print (msg : message) : M unit := emit (EvPrint msg).

Definition time_sleep (d : duration) : M unit := emit (EvSleep d).

(** [requests.get]: the call is recorded, the oracle is asked for the
    outcome of call number [calls], and the counter moves on. *)
Definition requests_get (rq : request) : M Response :=
  fun w =>
    let w' := mkWorld (net w) (S (calls w)) (fs w) (trace w ++ [EvRequest rq]) in
    match net w (calls w) rq with
    | Responds r => (Ok r, w')
    | Fails e => (Raise e, w')
    end.

(** [Response.raise_for_status]: an [HTTPError] for 4xx and 5xx. *)
Definition raise_for_status (r : Response) : M unit :=
  if (400 <=? status_code r) && (status_code r <? 600)
  then raise (HTTPError (status_code r))
  else ret tt.

Definition from_decoded {A} (d : decoded A) : M A :=
  match d with
  | Decoded a => ret a
  | Undecodable e => raise e
  end.

(** ** make_request *)

(** How one iteration of a [for] body ends: the loop goes on, or the
    function returns. *)
Inductive flow (A : Type) : Type :=
| Continue
| Return (v : A).
Arguments Continue {A}.
Arguments Return {A} v.

Definition backoff (backoff_factor : Q) (attempt : nat) : Q :=
  (backoff_factor * inject_Z (2 ^ Z.of_nat attempt))%Q.

(** The body of [for attempt in range(retries)]. *)
Definition make_request_attempt (_url : string) (_params : option (gmap string pvalue))
    (stream : bool) (retries : nat) (backoff_factor : Q) (attempt : nat)
  : M (flow (option Response)) :=
  try_except
    (let* response := requests_get (mkRequest _url _params (Some proxies) stream) in
     if status_code response =? 429 then
       let wait_time := backoff backoff_factor attempt in
       log_and_print (MsgRateLimited wait_time) INFO ;;
       time_sleep (Seconds wait_time) ;;
       ret Continue
     else
       raise_for_status response ;;
       ret (Return (Some response)))
    (fun e =>
       if is_RequestException e then Some (
         log_and_print (MsgRequestFailed e) ERROR ;;
         if Z.of_nat attempt <? Z.of_nat retries - 1 then
           let wait_time := backoff backoff_factor attempt in
           log_and_print (MsgWaitRetry wait_time) INFO ;;
           time_sleep (Seconds wait_time) ;;
           ret Continue
         else
           log_and_print (MsgGiveUp retries) ERROR ;;
           ret (Return None))
       else None).

(** The loop over the attempts still to make; running off its end is
    Python's implicit [return None]. *)
Fixpoint make_request_loop (_url : string) (_params : option (gmap string pvalue))
    (stream : bool) (retries : nat) (backoff_factor : Q) (attempts : list nat)
  : M (option Response) :=
  match attempts with
  | [] => ret None
  | attempt :: rest =>
      let* f := make_request_attempt _url _params stream retries backoff_factor attempt in
      match f with
      | Continue => make_request_loop _url _params stream retries backoff_factor rest
      | Return v => ret v
      end
  end.

Definition make_request_with (_url : string) (_params : option (gmap string pvalue))
    (stream : bool) (retries : nat) (backoff_factor : Q) : M (option Response) :=
  make_request_loop _url _params stream retries backoff_factor (seq 0 retries).

(** [make_request] with the defaults every call site uses:
    [retries=3, backoff_factor=0.3]. *)
Definition make_request (_url : string) (_params : option (gmap string pvalue))
    (stream : bool) : M (option Response) :=
  make_request_with _url _params stream 3 (3 # 10).

(** A [None] has no [status_code]: reading the attribute raises. *)
Definition attr_status_code (_response : option Response) : M Z :=
  match _response with
  | Some r => ret (status_code r)
  | None => raise (AttributeError "status_code")
  end.

(** [data = _response.json(); wallpapers = data['data']] and the list
    comprehension over [wallpapers]. *)
Definition response_ids (_response : option Response) : M (list string) :=
  match _response with
  | Some r => from_decoded (json_ids r)
  | None => raise (AttributeError "json")
  end.

(** ** The ID collector *)

Definition fetch_wallpaper_ids_single (base_url : string) (_params : gmap string pvalue)
  : M (list string) :=
  let pic_ids := [] in
  let* _response := make_request base_url (Some _params) false in
  let* status := attr_status_code _response in
  if status =? 200 then
    let* ids := response_ids _response in
    let pic_ids := pic_ids ++ ids in
    log_and_print MsgIdsFetched INFO ;;
    ret pic_ids
  else
    log_and_print (MsgStatusFailed status) ERROR ;;
    ret pic_ids.

(** [range(a, b)]. *)
Definition range (a b : Z) : list Z :=
  map (fun i => a + Z.of_nat i) (seq 0 (Z.to_nat (b - a))).

(** The body of [for _page in range(start_page, end_page + 1)] run over
    the pages still to visit; [_params] and [pic_ids] are the loop's two
    mutable objects. *)
Fixpoint fetch_pages (base_url : string) (_params : gmap string pvalue)
    (pages : list Z) (pic_ids : list string) : M (list string) :=
  match pages with
  | [] => ret pic_ids
  | _page :: rest =>
      let _params := <["page" := IntVal _page]> _params in
      let* _response := make_request base_url (Some _params) false in
      let* status := attr_status_code _response in
      let* pic_ids :=
        (if status =? 200 then
           let* ids := response_ids _response in
           let pic_ids := pic_ids ++ ids in
           log_and_print (MsgPageFetched _page) INFO ;;
           ret pic_ids
         else
           log_and_print (MsgPageFailed _page status) ERROR ;;
           ret pic_ids) in
      time_sleep (Uniform (12 # 10) (15 # 10)) ;;
      fetch_pages base_url _params rest pic_ids
  end.

Definition fetch_wallpaper_ids_paginated (base_url : string) (_params : gmap string pvalue)
    (start_page end_page : Z) : M (list string) :=
  fetch_pages base_url _params (range start_page (end_page + 1)) [].

(** [get_wallpaper_ids(_params, **kwargs)]; [api_key] is the credential the
    module reads from config.json when it is loaded. *)
Definition get_wallpaper_ids (api_key : string) (_params : gmap string pvalue)
    (kwargs : gmap string Z) : M (list string) :=
  let base_url := "https://wallhaven.cc/api/v1/search?apikey=" +:+ api_key in
  match kwargs !! "start_page", kwargs !! "end_page" with
  | Some start_page, Some end_page =>
      fetch_wallpaper_ids_paginated base_url _params start_page end_page
  | _, _ => fetch_wallpaper_ids_single base_url _params
  end.

(** ** The detail resolver *)

(** [requests.get] returns a response or raises, so the source's
    [if response is None: raise ValueError(..)] never fires and has no
    counterpart here. *)
Definition get_wallpaper_details (pic_id : string) : M (option string) :=
  try_except
    (let* response :=
       requests_get (mkRequest ("https://wallhaven.cc/api/v1/w/" +:+ pic_id) None None false) in
     if status_code response =? 200 then
       let* original_image_url := from_decoded (json_path response) in
       ret (Some original_image_url)
     else
       raise_for_status response ;;
       ret None)
    (fun e =>
       if is_RequestException e then Some (
         print (MsgRequestFailed e) ;;
         ret None)
       else None).

(** ** Files *)

(** The file system holds regular files by path; every directory named in
    a path is taken to exist. *)
Definition os_path_exists (path : string) : M bool :=
  fun w => (Ok (bool_decide (is_Some (fs w !! path))), w).

Definition set_file (path content : string) : M unit :=
  fun w => (Ok tt, mkWorld (net w) (calls w) (<[path := content]> (fs w)) (trace w)).

(** [open(path, 'wb')] and [open(path, 'w')]: the file is created or
    emptied. *)
Definition open_truncate (path : string) : M unit := set_file path "".

(** [open(path, 'a')]: the file is created when it is missing. *)
Definition open_append (path : string) : M unit :=
  fun w => match fs w !! path with
           | Some _ => (Ok tt, w)
           | None => set_file path "" w
           end.

(** [f.write(data)] on a file opened for writing or appending. *)
Definition file_write (path data : string) : M unit :=
  fun w => set_file path (default "" (fs w !! path) +:+ data) w.

(** [open(path, 'r')] followed by reading everything. *)
Definition file_read (path : string) : M string :=
  fun w => match fs w !! path with
           | Some content => (Ok content, w)
           | None => (Raise (FileNotFoundError path), w)
           end.

(** ** String operations of the Python library *)

(** [s.split(sep)] for a one-character separator. *)
Fixpoint split_on (sep : ascii) (s : string) : list string :=
  match s with
  | EmptyString => [EmptyString]
  | String c s' =>
      if Ascii.eqb c sep then EmptyString :: split_on sep s'
      else match split_on sep s' with
           | h :: t => String c h :: t
           | [] => [String c EmptyString]
           end
  end.

(** [l[-1]] of a list of strings that is never empty. *)
Definition last_item (l : list string) : string := List.last l "".

Definition startswith_char (c : ascii) (s : string) : bool :=
  match s with
  | String c' _ => Ascii.eqb c' c
  | EmptyString => false
  end.

Fixpoint endswith_char (c : ascii) (s : string) : bool :=
  match s with
  | EmptyString => false
  | String c' EmptyString => Ascii.eqb c' c
  | String _ s' => endswith_char c s'
  end.

(** [os.path.join(a, b)] as posixpath defines it for two components.
    Where the script runs under Windows [os.path] is ntpath, whose join
    differs; the theorems below that hold for every directory and
    location do not depend on how it joins. *)
Definition os_path_join (a b : string) : string :=
  if startswith_char "/" b then b
  else if String.eqb a "" || endswith_char "/" a then a +:+ b
  else a +:+ "/" +:+ b.

(** [str.isspace] on the ASCII range: tab, line feed, vertical tab, form
    feed, carriage return, the four separators 0x1c to 0x1f, and space. *)
Definition isspace (c : ascii) : bool :=
  let n := N_of_ascii c in
  ((9 <=? n) && (n <=? 13) || (28 <=? n) && (n <=? 32))%N.

Fixpoint lstrip (s : string) : string :=
  match s with
  | String c s' => if isspace c then lstrip s' else s
  | EmptyString => EmptyString
  end.

Fixpoint rstrip (s : string) : string :=
  match s with
  | EmptyString => EmptyString
  | String c s' =>
      match rstrip s' with
      | EmptyString => if isspace c then EmptyString else String c EmptyString
      | t => String c t
      end
  end.

(** [s.strip()]. *)
Definition strip (s : string) : string := rstrip (lstrip s).

(** The lines a text file yields when iterated, read with universal
    newlines: a line ends at a line feed, a carriage return, or the pair
    of them.  [cur] is the line being read; [after_cr] says the previous
    character was a carriage return, whose line feed is then part of the
    same line end.  A line is given without its end, which the [strip]
    that follows in the source removes anyway. *)
Fixpoint readlines_from (cur : string) (after_cr : bool) (s : string) : list string :=
  match s with
  | EmptyString => if String.eqb cur "" then [] else [cur]
  | String c s' =>
      if Ascii.eqb c "010" then
        if after_cr then readlines_from "" false s'
        else cur :: readlines_from "" false s'
      else if Ascii.eqb c "013" then cur :: readlines_from "" true s'
      else readlines_from (cur +:+ String c EmptyString) false s'
  end.

Definition readlines (content : string) : list string :=
  readlines_from "" false content.

(** [response.iter_content(chunk_size)]: the body in consecutive slices of
    [chunk_size] bytes, the last one possibly shorter.  [fuel] bounds the
    number of slices; the length of the data is enough. *)
Fixpoint slices (fuel chunk_size : nat) (data : list ascii) : list (list ascii) :=
  match fuel with
  | O => []
  | S fuel' =>
      match data with
      | [] => []
      | _ => take chunk_size data :: slices fuel' chunk_size (drop chunk_size data)
      end
  end.

Definition iter_content (chunk_size : nat) (data : string) : list string :=
  let l := list_ascii_of_string data in
  map string_of_list_ascii (slices (length l) chunk_size l).

(** ** The download executor *)

(** [for chunk in ..: if chunk: f.write(chunk)]. *)
Fixpoint write_chunks (filename : string) (chunks : list string) : M unit :=
  match chunks with
  | [] => ret tt
  | chunk :: rest =>
      (if String.eqb chunk "" then ret tt else file_write filename chunk) ;;
      write_chunks filename rest
  end.

(** The integer nearest to [n / d], for [n] not negative and [d]
    positive; of two integers equally near, the even one. *)
Definition round_half_even (n d : Z) : Z :=
  let q := n / d in
  let r := n mod d in
  if 2 * r <? d then q
  else if d <? 2 * r then q + 1
  else if Z.even q then q
  else q + 1.

(** [f"{x:.2f}"]: the sign of [x] and its magnitude rounded to
    hundredths, ties to the even digit, as Python formats the exact value
    of a float.  [x] is the value of the float: the quotient
    [total_size / (1024 * 1024)] is a float without rounding as long as
    [total_size] is below 2^53 in magnitude, and the properties of the
    logged size are stated for such lengths. *)
Definition format_2f (x : Q) : two_decimals :=
  mkTwoDecimals (Qnum x <? 0)
                (round_half_even (Z.abs (Qnum x) * 100) (Zpos (Qden x))).

(** The progress bar [tqdm] draws to the terminal is not part of the
    trace; [total_size // 1024] is only its length. *)
Definition download_image (image_url filename : string) : M unit :=
  let* _response := make_request image_url None true in
  let* status := attr_status_code _response in
  match _response with
  | Some r =>
      if status =? 200 then
        let total_size := default 0 (content_length r) in
        open_truncate filename ;;
        write_chunks filename (iter_content 1024 (body r)) ;;
        let file_size_mb := (inject_Z total_size / inject_Z (1024 * 1024))%Q in
        log_and_print (MsgImageSaved filename (format_2f file_size_mb)) INFO
      else
        log_and_print (MsgDownloadFailed image_url) ERROR
  | None => raise (AttributeError "status_code")
  end.

(** ** The ledger *)

(** [for wallpaper_id in pic_ids] with the file open for appending. *)
Fixpoint append_new_ids (existing_ids : gset string) (filename : string)
    (pic_ids : list string) : M unit :=
  match pic_ids with
  | [] => ret tt
  | wallpaper_id :: rest =>
      (if bool_decide (wallpaper_id ∉ existing_ids) then
         file_write filename (wallpaper_id +:+ String "010" EmptyString) ;;
         log_and_print (MsgIdSaved wallpaper_id filename) INFO
       else
         log_and_print (MsgIdExists wallpaper_id) INFO) ;;
      append_new_ids existing_ids filename rest
  end.

Definition is_FileNotFoundError (e : exn) : bool :=
  match e with
  | FileNotFoundError _ => true
  | _ => false
  end.

Definition save_wallpaper_ids_to_file (pic_ids : list string) (filename : string) : M unit :=
  let* existing_ids :=
    try_except
      (let* content := file_read filename in
       ret (list_to_set (map strip (readlines content)) : gset string))
      (fun e => if is_FileNotFoundError e then Some (ret ∅) else None) in
  open_append filename ;;
  append_new_ids existing_ids filename pic_ids.

(** ** One unit of work and the orchestrator *)

Definition main (pic_id directory : string) : M unit :=
  let* original_image_url := get_wallpaper_details pic_id in
  match original_image_url with
  | Some original_image_url =>
      if String.eqb original_image_url "" then
        log_and_print MsgNoOriginalUrl ERROR
      else
        log_and_print (MsgOriginalUrl original_image_url) INFO ;;
        let pic_filename := last_item (split_on "/" original_image_url) in
        let pic_filepath := os_path_join directory pic_filename in
        let* present := os_path_exists pic_filepath in
        if present then
          log_and_print (MsgImageExists pic_filename) INFO
        else
          download_image original_image_url pic_filepath
  | None => log_and_print MsgNoOriginalUrl ERROR
  end.

(** The thread pool is embedded by one of its schedules: every submitted
    unit runs to its end, in submission order, and its future holds how it
    ended.  That is the schedule of [max_workers=1]; the order in which
    the orchestrator asks the futures for their results, and what each
    [result()] returns or raises, are the same under every schedule. *)
Definition submit (index : nat) (unit_of_work : M unit) : M outcome :=
  fun w =>
    match unit_of_work w with
    | (Ok _, w') => (emit (EvUnitDone index Completed) ;; ret Completed) w'
    | (Raise e, w') => (emit (EvUnitDone index (Raised e)) ;; ret (Raised e)) w'
    end.

(** [[executor.submit(main, wallpaper_id, directory) for wallpaper_id in pic_ids]]. *)
Fixpoint submit_all (directory : string) (index : nat) (pic_ids : list string)
  : M (list outcome) :=
  match pic_ids with
  | [] => ret []
  | wallpaper_id :: rest =>
      let* future := submit index (main wallpaper_id directory) in
      let* futures := submit_all directory (S index) rest in
      ret (future :: futures)
  end.

(** [for future in futures: future.result()]: a future that holds an
    exception raises it out of the loop. *)
Fixpoint collect_results (index : nat) (futures : list outcome) : M unit :=
  match futures with
  | [] => ret tt
  | future :: rest =>
      emit (EvResult index future) ;;
      match future with
      | Completed => collect_results (S index) rest
      | Raised e => raise e
      end
  end.

Definition download_wallpapers_concurrently (pic_ids : list string) (directory : string)
    (max_workers : Z) : M unit :=
  if max_workers <=? 0 then raise (ValueError "max_workers must be greater than 0")
  else
    let* futures := submit_all directory 0 pic_ids in
    collect_results 0 futures.

(** ** The URL parameter parser *)

(** Python strings are held as their UTF-8 bytes. *)

Definition hex_value (c : ascii) : option N :=
  let n := N_of_ascii c in
  if ((48 <=? n) && (n <=? 57))%N then Some (n - 48)%N
  else if ((65 <=? n) && (n <=? 70))%N then Some (n - 55)%N
  else if ((97 <=? n) && (n <=? 102))%N then Some (n - 87)%N
  else None.

(** [urllib.parse.unquote]: every [%XX] with two hexadecimal digits
    becomes the byte it names; other characters stay.  (Python then reads
    the bytes as UTF-8 and replaces an invalid sequence by U+FFFD; here
    the bytes are kept as they are.) *)
Fixpoint unquote (s : string) : string :=
  match s with
  | EmptyString => EmptyString
  | String c s1 =>
      if Ascii.eqb c "%" then
        match s1 with
        | String h (String l s3) =>
            match hex_value h, hex_value l with
            | Some a, Some b => String (ascii_of_N (16 * a + b)) (unquote s3)
            | _, _ => String c (unquote s1)
            end
        | _ => String c (unquote s1)
        end
      else String c (unquote s1)
  end.

(** [s.replace('+', ' ')]. *)
Fixpoint plus_to_space (s : string) : string :=
  match s with
  | EmptyString => EmptyString
  | String c s' => String (if Ascii.eqb c "+" then " "%char else c) (plus_to_space s')
  end.

(** [s.split('=', 1)] when [s] holds an equals sign, as the pair of what
    precedes the first one and what follows it. *)
Fixpoint partition_eq (s : string) : option (string * string) :=
  match s with
  | EmptyString => None
  | String c s' =>
      if Ascii.eqb c "=" then Some (EmptyString, s')
      else match partition_eq s' with
           | Some (name, value) => Some (String c name, value)
           | None => None
           end
  end.

(** One field of a query string as [parse_qsl] treats it with its default
    arguments ([keep_blank_values=False, strict_parsing=False]): a field
    without an equals sign or with nothing after it is dropped. *)
Definition parse_field (name_value : string) : option (string * string) :=
  match partition_eq name_value with
  | Some (name, value) =>
      if String.eqb value "" then None
      else Some (unquote (plus_to_space name), unquote (plus_to_space value))
  | None => None
  end.

(** [urllib.parse.parse_qsl(qs)]. *)
Definition parse_qsl (qs : string) : list (string * string) :=
  omap parse_field (split_on "&" qs).

(** One step of the loop of [parse_qs]:
    [if name in parsed_result: parsed_result[name].append(value)
     else: parsed_result[name] = [value]]. *)
Definition parse_qs_step (parsed_result : gmap string (list string))
    (pair : string * string) : gmap string (list string) :=
  match parsed_result !! pair.1 with
  | Some values => <[pair.1 := values ++ [pair.2]]> parsed_result
  | None => <[pair.1 := [pair.2]]> parsed_result
  end.

(** [urllib.parse.parse_qs(qs)]. *)
Definition parse_qs (qs : string) : gmap string (list string) :=
  foldl parse_qs_step ∅ (parse_qsl qs).

(** The characters [urlsplit] strips from the front of a link (C0 controls
    and space) and those it deletes everywhere (tab, line feed, carriage
    return). *)
Definition is_c0_or_space (c : ascii) : bool := (N_of_ascii c <=? 32)%N.

Fixpoint lstrip_c0 (s : string) : string :=
  match s with
  | String c s' => if is_c0_or_space c then lstrip_c0 s' else s
  | EmptyString => EmptyString
  end.

Definition is_unsafe_byte (c : ascii) : bool :=
  let n := N_of_ascii c in ((n =? 9) || (n =? 10) || (n =? 13))%N.

Fixpoint remove_unsafe (s : string) : string :=
  match s with
  | EmptyString => EmptyString
  | String c s' => if is_unsafe_byte c then remove_unsafe s' else String c (remove_unsafe s')
  end.

Definition is_alpha (c : ascii) : bool :=
  let n := N_of_ascii c in
  ((65 <=? n) && (n <=? 90) || (97 <=? n) && (n <=? 122))%N.

Definition is_scheme_char (c : ascii) : bool :=
  let n := N_of_ascii c in
  is_alpha c || ((48 <=? n) && (n <=? 57))%N
  || Ascii.eqb c "+" || Ascii.eqb c "-" || Ascii.eqb c ".".

(** [s.split(c, 1)]: what precedes the first [c], and what follows it when
    there is one. *)
Fixpoint split_first (c : ascii) (s : string) : string * option string :=
  match s with
  | EmptyString => (EmptyString, None)
  | String c' s' =>
      if Ascii.eqb c' c then (EmptyString, Some s')
      else let '(before, after) := split_first c s' in (String c' before, after)
  end.

Fixpoint string_forallb (p : ascii -> bool) (s : string) : bool :=
  match s with
  | EmptyString => true
  | String c s' => p c && string_forallb p s'
  end.

Fixpoint string_existsb (p : ascii -> bool) (s : string) : bool :=
  match s with
  | EmptyString => false
  | String c s' => p c || string_existsb p s'
  end.

Definition startswith_any (p : ascii -> bool) (s : string) : bool :=
  match s with
  | String c _ => p c
  | EmptyString => false
  end.

(** The scheme test of [urlsplit]: a colon that is not first, a letter in
    front, only scheme characters before the colon; the rest of the link
    is what follows the colon. *)
Definition strip_scheme (url : string) : string :=
  match split_first ":" url with
  | (before, Some after) =>
      if negb (String.eqb before "") && startswith_any is_alpha before
         && string_forallb is_scheme_char before
      then after else url
  | (_, None) => url
  end.

(** [_splitnetloc(url, 2)]: the network location runs from after the two
    slashes to the first of slash, question mark and hash. *)
Fixpoint splitnetloc (s : string) : string * string :=
  match s with
  | EmptyString => (EmptyString, EmptyString)
  | String c s' =>
      if Ascii.eqb c "/" || Ascii.eqb c "?" || Ascii.eqb c "#" then (EmptyString, s)
      else let '(netloc, rest) := splitnetloc s' in (String c netloc, rest)
  end.

(** [urlparse(_url).query].  Of the checks [urlsplit] makes on the network
    location, the one on unmatched square brackets is embedded; a host in
    matched brackets is taken to be a valid address and a host outside
    ASCII to pass the normalisation check. *)
Definition urlparse_query (_url : string) : result string :=
  let url := remove_unsafe (lstrip_c0 _url) in
  let url := strip_scheme url in
  let '(netloc, url) :=
    match url with
    | String "/" (String "/" rest) => splitnetloc rest
    | _ => (EmptyString, url)
    end in
  let has_open := string_existsb (Ascii.eqb "[") netloc in
  let has_close := string_existsb (Ascii.eqb "]") netloc in
  if has_open && negb has_close || has_close && negb has_open
  then Raise (ValueError "Invalid IPv6 URL")
  else
    let '(url, _) := split_first "#" url in
    match split_first "?" url with
    | (_, Some query) => Ok query
    | (_, None) => Ok EmptyString
    end.

(** The dictionary comprehension of [parse_url_params]. *)
Definition scalar_or_sequence (v : list string) : pvalue :=
  match v with
  | [x] => Scalar x
  | _ => Sequence v
  end.

Definition parse_url_params (_url : string) : result (gmap string pvalue) :=
  match urlparse_query _url with
  | Ok query => Ok (scalar_or_sequence <$> parse_qs query)
  | Raise e => Raise e
  end.

(** ** Reading the trace *)

(** The world after [n] more calls of [requests.get] and the events
    [evs]; the file system is the same. *)
Definition advance (w : world) (n : nat) (evs : list event) : world :=
  mkWorld (net w) (n + calls w) (fs w) (trace w ++ evs).

Definition error_entries (t : list event) : list message :=
  omap (fun ev => match ev with EvLog ERROR msg => Some msg | _ => None end) t.

Definition sleeps (t : list event) : list duration :=
  omap (fun ev => match ev with EvSleep d => Some d | _ => None end) t.

Definition requests_made (t : list event) : list request :=
  omap (fun ev => match ev with EvRequest rq => Some rq | _ => None end) t.

Definition results_retrieved (t : list event) : list (nat * outcome) :=
  omap (fun ev => match ev with EvResult i o => Some (i, o) | _ => None end) t.

Definition units_done (t : list event) : list (nat * outcome) :=
  omap (fun ev => match ev with EvUnitDone i o => Some (i, o) | _ => None end) t.

(** How [make_request] sees the outcome of one attempt. *)
Inductive attempt_kind : Type :=
| RateLimited
| Recoverable (e : exn)
| Fatal (e : exn)
| Success (r : Response).

Definition classify (o : net_outcome) : attempt_kind :=
  match o with
  | Responds r =>
      if status_code r =? 429 then RateLimited
      else if (400 <=? status_code r) && (status_code r <? 600)
           then Recoverable (HTTPError (status_code r))
           else Success r
  | Fails e => if is_RequestException e then Recoverable e else Fatal e
  end.

(** ** Definitions the properties are stated with *)

(** The request [make_request] issues at every attempt. *)
Definition executor_request (_url : string) (_params : option (gmap string pvalue))
    (stream : bool) : request :=
  mkRequest _url _params (Some proxies) stream.

Definition response_429 : Response :=
  mkResponse 429 None "" (Undecodable (ValueError "no body")) (Undecodable (ValueError "no body")).

(** A world in which the service answers every call by status 429. *)
Definition world_rate_limited : world :=
  mkWorld (fun _ _ => Responds response_429) 0 ∅ [].

(** A world in which the service cannot be reached. *)
Definition world_unreachable : world :=
  mkWorld (fun _ _ => Fails ConnectionError) 0 ∅ [].

(** The request the collector issues for page [p]. *)
Definition page_request (base_url : string) (_params : gmap string pvalue) (p : Z) : request :=
  mkRequest base_url (Some (<["page" := IntVal p]> _params)) (Some proxies) false.

(** The identifiers page number [i] contributes, given its response. *)
Definition page_ids (r : Response) (ids : list string) : list string :=
  if status_code r =? 200 then ids else [].

Definition response_page : Response :=
  mkResponse 200 None "" (Decoded ["5gqdq1"; "zyxw21"]) (Undecodable (KeyError "path")).

(** A world in which the first call is answered with two identifiers and
    the service is unreachable from then on. *)
Definition world_second_page_down : world :=
  mkWorld (fun n _ => match n with O => Responds response_page | _ => Fails ConnectionError end)
          0 ∅ [].

(** The text of the lines the ledger writes for a list of identifiers. *)
Fixpoint ledger_lines (ids : list string) : string :=
  match ids with
  | [] => ""
  | wallpaper_id :: rest => (wallpaper_id +:+ String "010" EmptyString) +:+ ledger_lines rest
  end.

(** The identifiers [save_wallpaper_ids_to_file] loads from a file. *)
Definition loaded_ids (content : string) : gset string :=
  list_to_set (map strip (readlines content)).

(** A world with no file. *)
Definition world_empty : world :=
  mkWorld (fun _ _ => Fails ConnectionError) 0 ∅ [].

(** The results asked for, numbered from [index]. *)
Fixpoint result_events (index : nat) (futures : list outcome) : list event :=
  match futures with
  | [] => []
  | future :: rest => EvResult index future :: result_events (S index) rest
  end.

(** The answer to a detail request: the path of the image. *)
Definition response_detail : Response :=
  mkResponse 200 None "" (Undecodable (KeyError "id"))
    (Decoded "https://w.wallhaven.cc/full/5g/wallhaven-5gqdq1.jpg").

(** A world in which every image is resolved and no image can be
    fetched: a detail request is answered with the path of the image, a
    streamed request fails. *)
Definition world_downloads_fail : world :=
  mkWorld (fun _ rq => if req_stream rq then Fails ConnectionError
                       else Responds response_detail)
          0 ∅ [].

(** A world in which the image is resolved and already on disk. *)
Definition world_image_present : world :=
  mkWorld (fun _ _ => Responds response_detail) 0
          {[ "general/wallhaven-5gqdq1.jpg" := "old bytes" ]} [].

(** The text of a list of chunks put end to end. *)
Fixpoint joined (chunks : list string) : string :=
  match chunks with
  | [] => ""
  | chunk :: rest => chunk +:+ joined rest
  end.

(** A number of bytes in MiB. *)
Definition mib (bytes : Z) : Q := (inject_Z bytes / inject_Z (1024 * 1024))%Q.


Definition response_image_no_length : Response :=
  mkResponse 200 None "abc" (Undecodable (ValueError "not JSON"))
    (Undecodable (ValueError "not JSON")).


(** The request the resolver issues: no query, no proxies, not
    streamed. *)
Definition detail_request (pic_id : string) : request :=
  mkRequest ("https://wallhaven.cc/api/v1/w/" +:+ pic_id) None None false.

(** The resolver as the specification words it: the detail request goes
    through the executor, so it is retried with backoff and carries the
    proxies; the path is returned on status 200, and every failure is
    logged and gives nothing. *)
Definition get_wallpaper_details_via_executor (pic_id : string) : M (option string) :=
  let* response := make_request ("https://wallhaven.cc/api/v1/w/" +:+ pic_id) None false in
  match response with
  | Some r =>
      if status_code r =? 200 then
        match json_path r with
        | Decoded original_image_url => ret (Some original_image_url)
        | Undecodable e => log_and_print (MsgRequestFailed e) ERROR ;; ret None
        end
      else
        log_and_print (MsgStatusFailed (status_code r)) ERROR ;; ret None
  | None =>
      log_and_print (MsgRequestFailed (ValueError "empty response")) ERROR ;; ret None
  end.

(** C4 as the specification words it: the resolver gives what the
    resolver through the executor gives, and every request it issues
    carries the configured proxies. *)
Definition resolves_through_executor (pic_id : string) (w : world) : Prop :=
  fst (get_wallpaper_details pic_id w) = fst (get_wallpaper_details_via_executor pic_id w)
  /\ Forall (fun rq => req_proxies rq = Some proxies)
            (requests_made (trace (snd (get_wallpaper_details pic_id w)))).

(** A world in which the service answers the first call by status 429
    and every later call with the path of the image. *)
Definition world_limited_once : world :=
  mkWorld (fun n _ => match n with O => Responds response_429 | _ => Responds response_detail end)
          0 ∅ [].

(** [name] and [value] of a field as [parse_qsl] decodes them. *)
Definition decode (s : string) : string := unquote (plus_to_space s).

(** Every [name=value] field of a query string, decoded, in order of
    appearance, the fields with nothing after the equals sign
    included. *)
Definition query_fields (qs : string) : list (string * string) :=
  omap (fun name_value =>
          match partition_eq name_value with
          | Some (name, value) => Some (decode name, decode value)
          | None => None
          end)
       (split_on "&" qs).

(** The values a parameter is given in a query string, in order of
    appearance. *)
Definition occurrences (k : string) (qs : string) : list string :=
  map snd (filter (fun p => p.1 = k) (query_fields qs)).

(** The values paired with a name in a list of pairs, in order. *)
Definition values_of (k : string) (pairs : list (string * string)) : list string :=
  map snd (filter (fun p => p.1 = k) pairs).

(** C8 as the specification words it: a parameter that occurs once is
    mapped to its value, one that occurs several times to the sequence
    of its values. *)
Definition maps_every_occurrence (_url : string) : Prop :=
  forall qs m k,
    urlparse_query _url = Ok qs ->
    parse_url_params _url = Ok m ->
    match occurrences k qs with
    | [] => True
    | [v] => m !! k = Some (Scalar v)
    | vs => m !! k = Some (Sequence vs)
    end.

(** A world in which three pages are answered at the first attempt: the
    second by status 204, the first and the third by status 200, with one
    identifier on both. *)
Definition response_of_page (n : nat) : Response :=
  match n with
  | O => mkResponse 200 None "" (Decoded ["5gqdq1"; "zyxw21"]) (Undecodable (KeyError "path"))
  | S O => mkResponse 204 None "" (Undecodable (ValueError "no body")) (Undecodable (ValueError "no body"))
  | _ => mkResponse 200 None "" (Decoded ["zyxw21"; "o5wq39"]) (Undecodable (KeyError "path"))
  end.

Definition ids_of_page (n : nat) : list string :=
  match json_ids (response_of_page n) with
  | Decoded ids => ids
  | Undecodable _ => []
  end.

Definition world_three_pages : world :=
  mkWorld (fun n _ => Responds (response_of_page n)) 0 ∅ [].

(** ** Definitions for the further properties *)

(** A response [make_request] hands to its caller: the status is not 429
    and [raise_for_status] does not raise. *)
Definition accepted (r : Response) : bool :=
  negb (status_code r =? 429)
  && negb ((400 <=? status_code r) && (status_code r <? 600)).

(** An attempt after which [make_request] tries again, when it is not the
    last one. *)
Definition retried (k : attempt_kind) : bool :=
  match k with
  | RateLimited | Recoverable _ => true
  | _ => false
  end.

(** What an attempt that is tried again leaves in the trace. *)
Definition retry_events (rq : request) (backoff_factor : Q) (attempt : nat)
    (k : attempt_kind) : list event :=
  match k with
  | RateLimited =>
      [EvRequest rq; EvLog INFO (MsgRateLimited (backoff backoff_factor attempt));
       EvSleep (Seconds (backoff backoff_factor attempt))]
  | Recoverable e =>
      [EvRequest rq; EvLog ERROR (MsgRequestFailed e);
       EvLog INFO (MsgWaitRetry (backoff backoff_factor attempt));
       EvSleep (Seconds (backoff backoff_factor attempt))]
  | _ => []
  end.

(** A world in which [requests.get] raises an exception that is not a
    [RequestException]. *)
Definition world_type_error : world :=
  mkWorld (fun _ _ => Fails (TypeError "params")) 0 ∅ [].

(** The sum of the lengths of the identifier lists of the first [n]
    pages. *)
Fixpoint total_ids (r : nat -> Response) (ids : nat -> list string) (n : nat) : nat :=
  match n with
  | O => O
  | S n' => (total_ids r ids n' + length (page_ids (r n') (ids n')))%nat
  end.

(** A computation is confined to the events [P] and the paths [S] when,
    from every world, it leaves the oracle as it is, never lowers the call
    counter, only appends events that satisfy [P] to the trace, and leaves
    every path outside [S] as it found it (absent or with its content). *)
Definition confined (P : event -> Prop) (S : string -> Prop) {A : Type} (m : M A) : Prop :=
  forall w,
    net (snd (m w)) = net w
    /\ (calls w <= calls (snd (m w)))%nat
    /\ (exists evs, trace (snd (m w)) = trace w ++ evs /\ Forall P evs)
    /\ (forall p, ~ S p -> fs (snd (m w)) !! p = fs w !! p).

(** No path. *)
Definition no_path (p : string) : Prop := False.


(** The events of [make_request _url _params stream]: its request, log
    entries and sleeps. *)
Definition executor_event (_url : string) (_params : option (gmap string pvalue))
    (stream : bool) (ev : event) : Prop :=
  match ev with
  | EvRequest rq => rq = mkRequest _url _params (Some proxies) stream
  | EvLog _ _ | EvSleep _ => True
  | _ => False
  end.

(** The events of the collector on [base_url]: requests for [base_url]
    that carry the proxies and are not streamed, log entries and sleeps. *)
Definition collector_event (base_url : string) (ev : event) : Prop :=
  match ev with
  | EvRequest rq =>
      req_url rq = base_url /\ req_proxies rq = Some proxies /\ req_stream rq = false
      /\ is_Some (req_params rq)
  | EvLog _ _ | EvSleep _ => True
  | _ => False
  end.

(** The events of one unit of work for [pic_id]: the detail request, sent
    without proxies, streamed requests that carry the proxies and no
    parameters, log entries, prints and sleeps. *)
Definition unit_event (pic_id : string) (ev : event) : Prop :=
  match ev with
  | EvRequest rq =>
      rq = mkRequest ("https://wallhaven.cc/api/v1/w/" +:+ pic_id) None None false
      \/ (req_stream rq = true /\ req_proxies rq = Some proxies /\ req_params rq = None)
  | EvLog _ _ | EvPrint _ | EvSleep _ => True
  | _ => False
  end.

(** Line feed and carriage return. *)
Definition is_line_break (c : ascii) : bool := Ascii.eqb c "010" || Ascii.eqb c "013".

(** An identifier the ledger can hold on a line of its own: it has no
    line break inside and no white space around it. *)
Definition clean_id (s : string) : bool :=
  String.eqb (strip s) s && string_forallb (fun c => negb (is_line_break c)) s.

(** A world whose ledger already holds two identifiers. *)
Definition world_ledger : world :=
  mkWorld (fun _ _ => Fails ConnectionError) 0
          {[ "wallpaper_ids.txt" := ledger_lines ["5gqdq1"; "zyxw21"] ]} [].

(** A world in which every call is answered by status 204, with no
    body. *)
Definition world_no_content : world :=
  mkWorld (fun _ _ => Responds (response_of_page 1)) 0 ∅ [].

(** A world in which every image is resolved and fetched: a streamed
    request is answered by the image, any other by the path. *)
Definition world_pipeline : world :=
  mkWorld (fun _ rq => if req_stream rq then Responds response_image_no_length
                       else Responds response_detail)
          0 ∅ [].

(** The destination [main] computes for an image location: the directory
    joined with what follows the last slash. *)
Definition destination (directory original_image_url : string) : string :=
  os_path_join directory (last_item (split_on "/" original_image_url)).

(** The pipeline world with one file on disk. *)
Definition world_pipeline_other : world :=
  mkWorld (fun _ rq => if req_stream rq then Responds response_image_no_length
                       else Responds response_detail)
          0 {[ "general/other.jpg" := "other bytes" ]} [].

(** [params['categories'] == s]: a string equals the string with the same
    characters; a list or an integer equals no string. *)
Definition pvalue_is (v : pvalue) (s : string) : bool :=
  match v with
  | Scalar x => String.eqb x s
  | _ => false
  end.

(** The folder the script picks from the [categories] parameter. *)
Definition pic_folder (params : gmap string pvalue) : string :=
  match params !! "categories" with
  | Some categories =>
      if pvalue_is categories "100" then "general"
      else if pvalue_is categories "010" then "anime"
      else if pvalue_is categories "001" then "people"
      else "general"
  | None => "general"
  end.

(** A character that may stand in a host without ending it, closing a
    bracket or being deleted by [urlsplit]. *)
Definition is_host_char (c : ascii) : bool :=
  negb (Ascii.eqb c "/" || Ascii.eqb c "?" || Ascii.eqb c "#" || Ascii.eqb c "]"
        || is_unsafe_byte c).



(** C10 as the specification words it: a parameter that has an occurrence
    with an empty value is not in the mapping. *)
Definition omits_blank_parameters (_url : string) : Prop :=
  forall qs m k,
    urlparse_query _url = Ok qs ->
    parse_url_params _url = Ok m ->
    "" ∈ occurrences k qs ->
    m !! k = None.

(** * Properties *)

Section Monad_facts.

Lemma advance_advance w n m evs evs' :
  advance (advance w n evs) m evs' = advance w (m + n) (evs ++ evs').
Proof.
  unfold advance; simpl. f_equal; [lia | now rewrite <- app_assoc].
Qed.

Lemma advance_nil w : advance w 0 [] = w.
Proof. destruct w; unfold advance; simpl. now rewrite app_nil_r. Qed.

Lemma emit_advance ev w : emit ev w = (Ok tt, advance w 0 [ev]).
Proof. reflexivity. Qed.

Lemma bind_ok {A B} (m : M A) (k : A -> M B) w a w' :
  m w = (Ok a, w') -> bind m k w = k a w'.
Proof. intros H; unfold bind; now rewrite H. Qed.

Lemma bind_raise {A B} (m : M A) (k : A -> M B) w e w' :
  m w = (Raise e, w') -> bind m k w = (Raise e, w').
Proof. intros H; unfold bind; now rewrite H. Qed.

End Monad_facts.

Section Executor.

Variables (_url : string) (_params : option (gmap string pvalue)) (stream : bool).
Variables (retries : nat) (backoff_factor : Q).

(** One attempt, by the kind of its outcome. *)
Lemma make_request_attempt_spec attempt w :
  make_request_attempt _url _params stream retries backoff_factor attempt w =
  match classify (net w (calls w) (executor_request _url _params stream)) with
  | RateLimited =>
      (Ok Continue,
       advance w 1 [EvRequest (executor_request _url _params stream);
                    EvLog INFO (MsgRateLimited (backoff backoff_factor attempt));
                    EvSleep (Seconds (backoff backoff_factor attempt))])
  | Recoverable e =>
      if Z.of_nat attempt <? Z.of_nat retries - 1 then
        (Ok Continue,
         advance w 1 [EvRequest (executor_request _url _params stream);
                      EvLog ERROR (MsgRequestFailed e);
                      EvLog INFO (MsgWaitRetry (backoff backoff_factor attempt));
                      EvSleep (Seconds (backoff backoff_factor attempt))])
      else
        (Ok (Return None),
         advance w 1 [EvRequest (executor_request _url _params stream);
                      EvLog ERROR (MsgRequestFailed e);
                      EvLog ERROR (MsgGiveUp retries)])
  | Fatal e => (Raise e, advance w 1 [EvRequest (executor_request _url _params stream)])
  | Success r => (Ok (Return (Some r)), advance w 1 [EvRequest (executor_request _url _params stream)])
  end.
Proof.
  unfold make_request_attempt, try_except, bind, requests_get, classify.
  fold (executor_request _url _params stream).
  destruct (net w (calls w) (executor_request _url _params stream)) as [r | e]; simpl.
  - destruct (status_code r =? 429) eqn:E429; simpl.
    + unfold advance; simpl. now rewrite <- !app_assoc.
    + unfold raise_for_status.
      destruct ((400 <=? status_code r) && (status_code r <? 600)) eqn:Eerr; simpl.
      * destruct (Z.of_nat attempt <? Z.of_nat retries - 1); simpl;
          unfold advance; simpl; now rewrite <- !app_assoc.
      * reflexivity.
  - destruct (is_RequestException e) eqn:Ereq; simpl.
    + destruct (Z.of_nat attempt <? Z.of_nat retries - 1); simpl;
        unfold advance; simpl; now rewrite <- !app_assoc.
    + reflexivity.
Qed.

End Executor.

Section Exhaustion.

Variables (_url : string) (_params : option (gmap string pvalue)) (stream : bool).

(** When every one of the three attempts ends in a [RequestException]
    (a transport failure, or the [HTTPError] of a 4xx or 5xx status),
    [make_request] returns [None], has slept [0.3 * 2^attempt] seconds
    before each of the two retries, and its last log entry is the
    error-level record of the exhaustion. *)
Lemma make_request_failures_exhausted (e : nat -> exn) w :
  (forall i, (i < 3)%nat -> classify (net w (i + calls w) (executor_request _url _params stream)) = Recoverable (e i)) ->
  make_request _url _params stream w =
    (Ok None,
     advance w 3
       [EvRequest (executor_request _url _params stream); EvLog ERROR (MsgRequestFailed (e 0%nat));
        EvLog INFO (MsgWaitRetry (backoff (3 # 10) 0));
        EvSleep (Seconds (backoff (3 # 10) 0));
        EvRequest (executor_request _url _params stream); EvLog ERROR (MsgRequestFailed (e 1%nat));
        EvLog INFO (MsgWaitRetry (backoff (3 # 10) 1));
        EvSleep (Seconds (backoff (3 # 10) 1));
        EvRequest (executor_request _url _params stream); EvLog ERROR (MsgRequestFailed (e 2%nat));
        EvLog ERROR (MsgGiveUp 3)]).
Proof.
  intros H.
  pose proof (H 0%nat ltac:(lia)) as H0.
  pose proof (H 1%nat ltac:(lia)) as H1.
  pose proof (H 2%nat ltac:(lia)) as H2.
  simpl in H0, H1, H2.
  unfold make_request, make_request_with. simpl seq. simpl make_request_loop.
  unfold bind.
  rewrite make_request_attempt_spec. rewrite H0. simpl.
  rewrite make_request_attempt_spec. simpl. rewrite H1. simpl.
  rewrite make_request_attempt_spec. simpl. rewrite H2. simpl.
  unfold ret. rewrite !advance_advance. reflexivity.
Qed.

(** C7, the code at its failing input: when every one of the three
    attempts is answered by status 429, [make_request] returns [None]
    having slept after each attempt, the last one included, and nothing
    it logged is at error level: the exhaustion is not recorded. *)
Theorem make_request_rate_limited_exhausted w :
  (forall i, (i < 3)%nat -> classify (net w (i + calls w) (executor_request _url _params stream)) = RateLimited) ->
  let new :=
    [EvRequest (executor_request _url _params stream); EvLog INFO (MsgRateLimited (backoff (3 # 10) 0));
     EvSleep (Seconds (backoff (3 # 10) 0));
     EvRequest (executor_request _url _params stream); EvLog INFO (MsgRateLimited (backoff (3 # 10) 1));
     EvSleep (Seconds (backoff (3 # 10) 1));
     EvRequest (executor_request _url _params stream); EvLog INFO (MsgRateLimited (backoff (3 # 10) 2));
     EvSleep (Seconds (backoff (3 # 10) 2))] in
  make_request _url _params stream w = (Ok None, advance w 3 new)
  /\ error_entries new = [].
Proof.
  intros H new.
  pose proof (H 0%nat ltac:(lia)) as H0.
  pose proof (H 1%nat ltac:(lia)) as H1.
  pose proof (H 2%nat ltac:(lia)) as H2.
  simpl in H0, H1, H2.
  split; [| reflexivity].
  unfold make_request, make_request_with. simpl seq. simpl make_request_loop.
  unfold bind.
  rewrite make_request_attempt_spec. rewrite H0. simpl.
  rewrite make_request_attempt_spec. simpl. rewrite H1. simpl.
  rewrite make_request_attempt_spec. simpl. rewrite H2. simpl.
  unfold ret. rewrite !advance_advance. reflexivity.
Qed.

End Exhaustion.

Lemma make_request_rate_limited_exhausted_witness :
  (forall i, (i < 3)%nat ->
     classify (net world_rate_limited (i + calls world_rate_limited)
                 (mkRequest "https://wallhaven.cc/api/v1/search" None (Some proxies) false))
     = RateLimited)
  /\ fst (make_request "https://wallhaven.cc/api/v1/search" None false world_rate_limited)
     = Ok None.
Proof.
  split.
  - intros i Hi. reflexivity.
  - destruct (make_request_rate_limited_exhausted
                "https://wallhaven.cc/api/v1/search" None false world_rate_limited
                (fun i Hi => eq_refl)) as [Hrun _].
    rewrite Hrun. reflexivity.
Defined.

(** C1, the code after an exhausted request: when [make_request] returns
    [None], the single-shot collector and the download executor both read
    [status_code] from it and leave by the [AttributeError] that raises;
    neither logs anything nor returns. *)
Theorem exhausted_request_is_dereferenced
    (base_url : string) (_params : gmap string pvalue) (image_url filename : string)
    (w w1 w2 : world) :
  make_request base_url (Some _params) false w = (Ok None, w1) ->
  make_request image_url None true w = (Ok None, w2) ->
  fetch_wallpaper_ids_single base_url _params w = (Raise (AttributeError "status_code"), w1)
  /\ download_image image_url filename w = (Raise (AttributeError "status_code"), w2).
Proof.
  intros Hsearch Himage. split.
  - unfold fetch_wallpaper_ids_single.
    rewrite (bind_ok _ _ _ _ _ Hsearch). reflexivity.
  - unfold download_image.
    rewrite (bind_ok _ _ _ _ _ Himage). reflexivity.
Qed.

Lemma exhausted_request_is_dereferenced_witness :
  fst (fetch_wallpaper_ids_single "https://wallhaven.cc/api/v1/search?apikey=k"
         {[ "q" := Scalar "like:5gqdq1" ]} world_unreachable)
    = Raise (AttributeError "status_code")
  /\ fst (download_image "https://w.wallhaven.cc/full/5g/wallhaven-5gqdq1.jpg"
            "general/wallhaven-5gqdq1.jpg" world_unreachable)
    = Raise (AttributeError "status_code").
Proof.
  destruct (exhausted_request_is_dereferenced
              "https://wallhaven.cc/api/v1/search?apikey=k"
              {[ "q" := Scalar "like:5gqdq1" ]}
              "https://w.wallhaven.cc/full/5g/wallhaven-5gqdq1.jpg"
              "general/wallhaven-5gqdq1.jpg"
              world_unreachable _ _
              (make_request_failures_exhausted _ _ _ (fun _ => ConnectionError)
                 world_unreachable (fun i Hi => eq_refl))
              (make_request_failures_exhausted _ _ _ (fun _ => ConnectionError)
                 world_unreachable (fun i Hi => eq_refl)))
    as [Hsingle Himage].
  rewrite Hsingle, Himage. split; reflexivity.
Defined.

Section Pagination.

Variables (base_url : string) (_params : gmap string pvalue).

Lemma make_request_first_attempt url params stream r w :
  classify (net w (calls w) (executor_request url params stream)) = Success r ->
  make_request url params stream w =
    (Ok (Some r), advance w 1 [EvRequest (executor_request url params stream)]).
Proof.
  intros H. unfold make_request, make_request_with. simpl seq. simpl make_request_loop.
  unfold bind. rewrite make_request_attempt_spec, H. reflexivity.
Qed.

Lemma sleeps_app t t' : sleeps (t ++ t') = sleeps t ++ sleeps t'.
Proof. apply omap_app. Qed.

Lemma requests_made_app t t' : requests_made (t ++ t') = requests_made t ++ requests_made t'.
Proof. apply omap_app. Qed.

(** Pages that are all answered at the first attempt, by a response
    whose body decodes when its status is 200: the collector returns the
    identifiers of the pages with status 200, in page order and with
    repetitions kept, has asked for each page in turn and has slept once
    after every page. *)
Lemma fetch_pages_answered (pages : list Z) :
  forall (r : nat -> Response) (ids : nat -> list string)
         (params0 : gmap string pvalue) (acc : list string) (w : world),
    (forall p, <["page" := IntVal p]> params0 = <["page" := IntVal p]> _params) ->
    (forall i p, pages !! i = Some p ->
       classify (net w (i + calls w) (page_request base_url _params p)) = Success (r i)
       /\ (status_code (r i) = 200 -> json_ids (r i) = Decoded (ids i))) ->
    exists w',
      fetch_pages base_url params0 pages acc w =
        (Ok (acc ++ concat (map (fun i => page_ids (r i) (ids i)) (seq 0 (length pages)))), w')
      /\ net w' = net w
      /\ calls w' = (length pages + calls w)%nat
      /\ fs w' = fs w
      /\ sleeps (trace w') = sleeps (trace w) ++ repeat (Uniform (12 # 10) (15 # 10)) (length pages)
      /\ requests_made (trace w') = requests_made (trace w) ++ map (page_request base_url _params) pages.
Proof.
  induction pages as [| p rest IH]; intros r ids params0 acc w Hparams Hnet.
  - exists w. simpl. rewrite !app_nil_r. repeat split; reflexivity.
  - destruct (Hnet 0%nat p eq_refl) as [Hfirst Hbody]. simpl in Hfirst.
    set (w1 := advance w 1 [EvRequest (page_request base_url _params p)]).
    assert (Hreq : make_request base_url (Some (<["page" := IntVal p]> params0)) false w
                   = (Ok (Some (r 0%nat)), w1)).
    { rewrite Hparams. now apply make_request_first_attempt. }
    set (acc1 := acc ++ page_ids (r 0%nat) (ids 0%nat)).
    set (w2 := advance w1 0
                 [EvLog (if status_code (r 0%nat) =? 200 then INFO else ERROR)
                    (if status_code (r 0%nat) =? 200 then MsgPageFetched p
                     else MsgPageFailed p (status_code (r 0%nat)));
                  EvSleep (Uniform (12 # 10) (15 # 10))]).
    destruct (IH (fun i => r (S i)) (fun i => ids (S i))
                (<["page" := IntVal p]> params0) acc1 w2) as (w' & Hrun & Hn & Hc & Hf & Hs & Hr).
    { intros q. rewrite insert_insert_eq. apply Hparams. }
    { intros i q Hq. specialize (Hnet (S i) q Hq).
      replace (i + calls w2)%nat with (S i + calls w)%nat by (subst w2 w1; simpl; lia).
      exact Hnet. }
    exists w'. split; [| repeat split].
    + simpl fetch_pages.
      rewrite (bind_ok _ _ _ _ _ Hreq). simpl attr_status_code.
      unfold bind at 1. unfold ret at 1.
      unfold page_ids in *. subst acc1 w2.
      unfold response_ids.
      destruct (status_code (r 0%nat) =? 200) eqn:E200.
      * rewrite (Hbody (proj1 (Z.eqb_eq _ _) E200)). simpl from_decoded.
        unfold bind, ret, log_and_print, time_sleep.
        rewrite emit_advance. cbv iota beta.
        rewrite emit_advance. cbv iota beta.
        rewrite advance_advance. simpl Nat.add. simpl app.
        rewrite Hrun. simpl. rewrite E200, <- app_assoc, <- seq_shift, map_map.
        reflexivity.
      * unfold bind, ret, log_and_print, time_sleep.
        rewrite emit_advance. cbv iota beta.
        rewrite emit_advance. cbv iota beta.
        rewrite advance_advance. simpl Nat.add. simpl app.
        rewrite app_nil_r in Hrun.
        rewrite Hrun. simpl. rewrite E200, <- seq_shift, map_map.
        reflexivity.
    + rewrite Hn. reflexivity.
    + rewrite Hc. subst w2 w1. simpl. lia.
    + rewrite Hf. reflexivity.
    + rewrite Hs. subst w2 w1. simpl trace. rewrite !sleeps_app. simpl.
      rewrite app_nil_r.
      destruct (status_code (r 0%nat) =? 200); simpl; now rewrite <- app_assoc.
    + rewrite Hr. subst w2 w1. simpl trace. rewrite !requests_made_app. simpl.
      destruct (status_code (r 0%nat) =? 200); simpl; rewrite app_nil_r, <- app_assoc;
        reflexivity.
Qed.

End Pagination.

Lemma range_lookup a b i p :
  range a b !! i = Some p -> p = a + Z.of_nat i /\ (i < Z.to_nat (b - a))%nat.
Proof.
  unfold range. rewrite list_lookup_fmap.
  destruct (seq 0 (Z.to_nat (b - a)) !! i) as [k |] eqn:E; simpl; [| discriminate].
  apply lookup_seq in E as [-> Hlt]. intros [= <-]. split; [reflexivity | exact Hlt].
Qed.

Lemma range_length a b : length (range a b) = Z.to_nat (b - a).
Proof. unfold range. now rewrite length_map, length_seq. Qed.

(** The paginated collector over pages [start_page .. end_page] that are
    all answered at the first attempt: what it returns is the
    concatenation, in ascending page order, of the identifier lists of the
    pages answered by status 200; it has issued one request per page, with
    the [page] parameter set to that page, and slept once per page. *)
Lemma fetch_wallpaper_ids_paginated_answered
    (base_url : string) (_params : gmap string pvalue) (start_page end_page : Z)
    (r : nat -> Response) (ids : nat -> list string) (w : world) :
  start_page <= end_page ->
  (forall i, (i < Z.to_nat (end_page + 1 - start_page))%nat ->
     classify (net w (i + calls w) (page_request base_url _params (start_page + Z.of_nat i)))
       = Success (r i)
     /\ (status_code (r i) = 200 -> json_ids (r i) = Decoded (ids i))) ->
  exists w',
    fetch_wallpaper_ids_paginated base_url _params start_page end_page w =
      (Ok (concat (map (fun i => page_ids (r i) (ids i))
                     (seq 0 (Z.to_nat (end_page + 1 - start_page))))), w')
    /\ sleeps (trace w') =
         sleeps (trace w)
         ++ repeat (Uniform (12 # 10) (15 # 10)) (Z.to_nat (end_page + 1 - start_page))
    /\ requests_made (trace w') =
         requests_made (trace w)
         ++ map (page_request base_url _params) (range start_page (end_page + 1)).
Proof.
  intros Hle Hnet.
  destruct (fetch_pages_answered base_url _params (range start_page (end_page + 1))
              r ids _params [] w) as (w' & Hrun & _ & _ & _ & Hs & Hr).
  { reflexivity. }
  { intros i p Hp. apply range_lookup in Hp as [-> Hlt]. now apply Hnet. }
  exists w'. rewrite range_length in Hrun, Hs.
  unfold fetch_wallpaper_ids_paginated. rewrite Hrun. simpl. repeat split; assumption.
Qed.

(** Pages 1 to 3 of [world_three_pages]: the identifiers of pages 1 and 3
    in that order, the one they share twice, and three sleeps. *)
Example fetch_wallpaper_ids_paginated_three_pages :
  exists w',
    fetch_wallpaper_ids_paginated "https://wallhaven.cc/api/v1/search?apikey=k"
      {[ "q" := Scalar "like:5gqdq1" ]} 1 3 world_three_pages
    = (Ok ["5gqdq1"; "zyxw21"; "zyxw21"; "o5wq39"], w')
    /\ sleeps (trace w') = repeat (Uniform (12 # 10) (15 # 10)) 3.
Proof.
  destruct (fetch_wallpaper_ids_paginated_answered
              "https://wallhaven.cc/api/v1/search?apikey=k"
              {[ "q" := Scalar "like:5gqdq1" ]} 1 3
              response_of_page ids_of_page world_three_pages ltac:(lia))
    as (w' & Hrun & Hsleeps & _).
  - intros i Hi. change (Z.to_nat (3 + 1 - 1)) with 3%nat in Hi.
    destruct i as [| [| [| i]]]; try lia; split; try reflexivity;
      intros Hstatus; try reflexivity; discriminate Hstatus.
  - exists w'. split; [exact Hrun | exact Hsleeps].
Qed.

(** C6, the code at its failing input: collecting pages 1 to 2 when page 2
    cannot be fetched.  The executor returns [None] for page 2, the
    collector reads [status_code] from it and leaves by [AttributeError]:
    it returns no list, the identifiers of page 1 are lost, and it has
    slept after page 1 only. *)
Theorem fetch_wallpaper_ids_paginated_failed_page :
  fst (fetch_wallpaper_ids_paginated "https://wallhaven.cc/api/v1/search?apikey=k"
         {[ "q" := Scalar "like:5gqdq1" ]} 1 2 world_second_page_down)
    = Raise (AttributeError "status_code")
  /\ sleeps (trace (snd (fetch_wallpaper_ids_paginated
                           "https://wallhaven.cc/api/v1/search?apikey=k"
                           {[ "q" := Scalar "like:5gqdq1" ]} 1 2 world_second_page_down)))
     = [Uniform (12 # 10) (15 # 10);
        Seconds (backoff (3 # 10) 0); Seconds (backoff (3 # 10) 1)]
  /\ length (requests_made (trace (snd (fetch_wallpaper_ids_paginated
                           "https://wallhaven.cc/api/v1/search?apikey=k"
                           {[ "q" := Scalar "like:5gqdq1" ]} 1 2 world_second_page_down))))
     = 4%nat.
Proof. vm_compute. repeat split; reflexivity. Qed.

Section Strings.

Lemma string_app_cons (x : ascii) (a b : string) :
  String x a +:+ b = String x (a +:+ b).
Proof. reflexivity. Qed.

Lemma string_app_nil_l (a : string) : "" +:+ a = a.
Proof. reflexivity. Qed.

Lemma string_app_assoc (a b c : string) : (a +:+ b) +:+ c = a +:+ (b +:+ c).
Proof.
  induction a as [| x a' IH]; [reflexivity |].
  rewrite !string_app_cons. now f_equal.
Qed.

Lemma string_app_nil_r (a : string) : a +:+ "" = a.
Proof.
  induction a as [| x a' IH]; [reflexivity |].
  rewrite string_app_cons. now f_equal.
Qed.

Lemma string_of_list_ascii_app (l l' : list ascii) :
  string_of_list_ascii (l ++ l') = string_of_list_ascii l +:+ string_of_list_ascii l'.
Proof.
  induction l as [| x l0 IH]; [reflexivity |].
  simpl. rewrite string_app_cons. now f_equal.
Qed.

End Strings.

Section Ledger.

(** The loop appends one line for every element of the input that is
    not among the identifiers loaded from the file, however often the
    element occurs in the input. *)
Lemma append_new_ids_spec (existing_ids : gset string) (filename : string)
    (pic_ids : list string) :
  forall w content,
    fs w !! filename = Some content ->
    exists w',
      append_new_ids existing_ids filename pic_ids w = (Ok tt, w')
      /\ net w' = net w /\ calls w' = calls w
      /\ fs w' = <[filename :=
                     content +:+ ledger_lines (filter (fun x => x ∉ existing_ids) pic_ids)]>
                   (fs w).
Proof.
  induction pic_ids as [| x rest IH]; intros w content Hfile.
  - exists w. simpl. rewrite string_app_nil_r, insert_id by exact Hfile.
    repeat split; reflexivity.
  - simpl append_new_ids. rewrite filter_cons.
    destruct (decide (x ∉ existing_ids)) as [Hnew | Hold].
    + rewrite (bool_decide_eq_true_2 _ Hnew).
      set (w1 := mkWorld (net w) (calls w)
                   (<[filename := content +:+ (x +:+ String "010" EmptyString)]> (fs w))
                   (trace w ++ [EvLog INFO (MsgIdSaved x filename)])).
      destruct (IH w1 (content +:+ (x +:+ String "010" EmptyString)))
        as (w' & Hrun & Hn & Hc & Hf).
      { subst w1; simpl. apply lookup_insert_eq. }
      exists w'. split; [| repeat split].
      * unfold bind, file_write, set_file, log_and_print, emit. simpl.
        rewrite Hfile. simpl. exact Hrun.
      * rewrite Hn. reflexivity.
      * rewrite Hc. reflexivity.
      * rewrite Hf. subst w1; simpl. rewrite insert_insert_eq.
        simpl ledger_lines. now rewrite !string_app_assoc.
    + rewrite (bool_decide_eq_false_2 _ Hold).
      set (w1 := advance w 0 [EvLog INFO (MsgIdExists x)]).
      destruct (IH w1 content) as (w' & Hrun & Hn & Hc & Hf).
      { exact Hfile. }
      exists w'. split; [exact Hrun | repeat split; assumption].
Qed.

(** What one run of the ledger does to its file: the old content stays
    and one line is added for every element of the input, in input
    order, that is not among the identifiers loaded at the start. *)
Lemma save_wallpaper_ids_to_file_spec (pic_ids : list string) (filename : string) w :
  let old := default "" (fs w !! filename) in
  exists w',
    save_wallpaper_ids_to_file pic_ids filename w = (Ok tt, w')
    /\ fs w' = <[filename :=
                   old +:+ ledger_lines (filter (fun x => x ∉ loaded_ids old) pic_ids)]>
                 (fs w).
Proof.
  intros old. subst old. unfold save_wallpaper_ids_to_file.
  destruct (fs w !! filename) as [content |] eqn:Hfile.
  - destruct (append_new_ids_spec (loaded_ids content) filename pic_ids w content Hfile)
      as (w' & Hrun & _ & _ & Hf).
    exists w'. split; [| exact Hf].
    unfold bind, try_except, file_read, open_append, ret. rewrite Hfile. simpl.
    rewrite Hfile. exact Hrun.
  - set (w1 := mkWorld (net w) (calls w) (<[filename := ""]> (fs w)) (trace w)).
    destruct (append_new_ids_spec ∅ filename pic_ids w1 "")
      as (w' & Hrun & _ & _ & Hf).
    { subst w1; simpl. apply lookup_insert_eq. }
    exists w'. split.
    + unfold bind, try_except, file_read, open_append, ret. rewrite Hfile. simpl.
      rewrite Hfile. exact Hrun.
    + rewrite Hf. subst w1; simpl. now rewrite insert_insert_eq.
Qed.

End Ledger.

(** C2, the code at its failing input: the list holds the same identifier
    twice and the ledger file does not exist.  One run writes the
    identifier on two lines; persisting the same list again leaves the two
    lines, not one. *)
Theorem save_wallpaper_ids_to_file_repeats_id :
  let first := snd (save_wallpaper_ids_to_file ["5gqdq1"; "5gqdq1"] "wallpaper_ids.txt"
                      world_empty) in
  let second := snd (save_wallpaper_ids_to_file ["5gqdq1"; "5gqdq1"] "wallpaper_ids.txt"
                       first) in
  let two_lines :=
    ("5gqdq1" +:+ String "010" EmptyString) +:+ ("5gqdq1" +:+ String "010" EmptyString) in
  fs first !! "wallpaper_ids.txt" = Some two_lines
  /\ fs second !! "wallpaper_ids.txt" = Some two_lines
  /\ readlines two_lines = ["5gqdq1"; "5gqdq1"].
Proof. vm_compute. repeat split; reflexivity. Qed.

Section Orchestrator.

(** Submitting never raises in the orchestrator: every identifier gets
    one future, and the future holds how its unit ended. *)
Lemma submit_all_total (directory : string) (pic_ids : list string) :
  forall index w, exists futures w',
    submit_all directory index pic_ids w = (Ok futures, w')
    /\ length futures = length pic_ids.
Proof.
  induction pic_ids as [| x rest IH]; intros index w.
  - exists [], w. split; reflexivity.
  - simpl submit_all. unfold bind at 1. unfold submit at 1.
    destruct (main x directory w) as [[[] | e] w1].
    + rewrite (bind_ok _ _ _ _ _ (emit_advance _ _)). unfold ret at 1.
      destruct (IH (S index) (advance w1 0 [EvUnitDone index Completed]))
        as (futures & w' & Hrun & Hlen).
      exists (Completed :: futures), w'. unfold bind. rewrite Hrun.
      split; [reflexivity | simpl; now rewrite Hlen].
    + rewrite (bind_ok _ _ _ _ _ (emit_advance _ _)). unfold ret at 1.
      destruct (IH (S index) (advance w1 0 [EvUnitDone index (Raised e)]))
        as (futures & w' & Hrun & Hlen).
      exists (Raised e :: futures), w'. unfold bind. rewrite Hrun.
      split; [reflexivity | simpl; now rewrite Hlen].
Qed.

(** When no unit raised, every future is asked for its result. *)
Lemma collect_results_all_completed (futures : list outcome) :
  forall index w,
    Forall (fun o => o = Completed) futures ->
    collect_results index futures w = (Ok tt, advance w 0 (result_events index futures)).
Proof.
  induction futures as [| o rest IH]; intros index w Hall.
  - simpl. now rewrite advance_nil.
  - inversion Hall as [| ? ? Ho Hrest]; subst.
    simpl collect_results. rewrite (bind_ok _ _ _ _ _ (emit_advance _ _)).
    rewrite IH by assumption. now rewrite advance_advance.
Qed.

(** The first future that holds an exception ends the loop: that
    exception leaves the orchestrator, and the futures behind it are not
    asked for their results, whatever they hold. *)
Lemma collect_results_first_raise (before after : list outcome) (e : exn) :
  forall index w,
    Forall (fun o => o = Completed) before ->
    collect_results index (before ++ Raised e :: after) w =
      (Raise e,
       advance w 0 (result_events index before
                    ++ [EvResult (index + length before) (Raised e)])).
Proof.
  induction before as [| o rest IH]; intros index w Hall.
  - simpl. rewrite Nat.add_0_r. reflexivity.
  - inversion Hall as [| ? ? Ho Hrest]; subst.
    simpl app. simpl collect_results. rewrite (bind_ok _ _ _ _ _ (emit_advance _ _)).
    rewrite IH by assumption. rewrite advance_advance. simpl.
    now rewrite Nat.add_succ_r.
Qed.

End Orchestrator.

(** C3, the code at its failing input: two identifiers whose units both
    raise (each download exhausts its retries and the absent response is
    dereferenced), five workers.  Both units run to their end, the
    orchestrator leaves by the exception of the first, and it has asked
    only the first future for its result: the exception of the second
    unit is never retrieved. *)
Theorem download_wallpapers_concurrently_second_exception_lost :
  let run := download_wallpapers_concurrently ["5gqdq1"; "zyxw21"] "general" 5
               world_downloads_fail in
  fst run = Raise (AttributeError "status_code")
  /\ units_done (trace (snd run))
     = [(0%nat, Raised (AttributeError "status_code"));
        (1%nat, Raised (AttributeError "status_code"))]
  /\ results_retrieved (trace (snd run))
     = [(0%nat, Raised (AttributeError "status_code"))].
Proof. vm_compute. repeat split; reflexivity. Qed.

Section Skip.

Lemma os_path_exists_present (path content : string) w :
  fs w !! path = Some content -> os_path_exists path w = (Ok true, w).
Proof.
  intros H. unfold os_path_exists. rewrite H.
  rewrite bool_decide_eq_true_2 by (eexists; reflexivity). reflexivity.
Qed.

(** C5: when the resolver has given the location of an image and a file
    is already at the destination (the directory joined with what
    follows the last slash of the location), the rest of [main] calls
    the network not at all and leaves the file system as it is, the
    content of that file included; it only writes to the log. *)
Theorem main_skips_existing_file
    (pic_id directory original_image_url content : string) (w w1 : world) :
  get_wallpaper_details pic_id w = (Ok (Some original_image_url), w1) ->
  fs w1 !! os_path_join directory (last_item (split_on "/" original_image_url))
    = Some content ->
  exists w2,
    main pic_id directory w = (Ok tt, w2)
    /\ calls w2 = calls w1
    /\ requests_made (trace w2) = requests_made (trace w1)
    /\ fs w2 = fs w1
    /\ fs w2 !! os_path_join directory (last_item (split_on "/" original_image_url))
       = Some content.
Proof.
  intros Hdetail Hfile. unfold main.
  rewrite (bind_ok _ _ _ _ _ Hdetail).
  destruct (String.eqb original_image_url "").
  - exists (advance w1 0 [EvLog ERROR MsgNoOriginalUrl]).
    unfold log_and_print. rewrite emit_advance. simpl.
    rewrite requests_made_app. simpl. rewrite app_nil_r.
    repeat split; try reflexivity. exact Hfile.
  - exists (advance w1 0
              [EvLog INFO (MsgOriginalUrl original_image_url);
               EvLog INFO (MsgImageExists (last_item (split_on "/" original_image_url)))]).
    split; [| simpl; rewrite requests_made_app, app_nil_r;
              repeat split; try reflexivity; exact Hfile].
    unfold log_and_print. rewrite (bind_ok _ _ _ _ _ (emit_advance _ _)).
    erewrite bind_ok by (apply os_path_exists_present with (content := content); exact Hfile).
    cbv beta iota. rewrite emit_advance, advance_advance. reflexivity.
Qed.

End Skip.

Lemma main_skips_existing_file_witness :
  exists w2,
    main "5gqdq1" "general" world_image_present = (Ok tt, w2)
    /\ calls w2 = calls (snd (get_wallpaper_details "5gqdq1" world_image_present))
    /\ requests_made (trace w2)
       = requests_made (trace (snd (get_wallpaper_details "5gqdq1" world_image_present)))
    /\ fs w2 = fs (snd (get_wallpaper_details "5gqdq1" world_image_present))
    /\ fs w2 !! os_path_join "general"
                  (last_item (split_on "/" "https://w.wallhaven.cc/full/5g/wallhaven-5gqdq1.jpg"))
       = Some "old bytes".
Proof.
  apply (main_skips_existing_file "5gqdq1" "general"
           "https://w.wallhaven.cc/full/5g/wallhaven-5gqdq1.jpg" "old bytes"
           world_image_present
           (snd (get_wallpaper_details "5gqdq1" world_image_present))).
  - vm_compute. reflexivity.
  - vm_compute. reflexivity.
Defined.

Section Download.

Lemma slices_concat (chunk_size : nat) :
  (0 < chunk_size)%nat ->
  forall fuel data, (length data <= fuel)%nat ->
    concat (slices fuel chunk_size data) = data.
Proof.
  intros Hpos. induction fuel as [| fuel IH]; intros data Hlen.
  - destruct data; [reflexivity | simpl in Hlen; lia].
  - destruct data as [| c data]; [reflexivity |].
    change (slices (S fuel) chunk_size (c :: data))
      with (take chunk_size (c :: data)
            :: slices fuel chunk_size (drop chunk_size (c :: data))).
    simpl concat. rewrite IH.
    + apply take_drop.
    + rewrite length_drop. simpl in *. lia.
Qed.


Lemma joined_string_of_list_ascii (ls : list (list ascii)) :
  joined (map string_of_list_ascii ls) = string_of_list_ascii (concat ls).
Proof.
  induction ls as [| l ls IH]; [reflexivity |].
  simpl. now rewrite IH, string_of_list_ascii_app.
Qed.

(** The chunks of a body, put end to end, are the body. *)
Lemma iter_content_joined (chunk_size : nat) (data : string) :
  (0 < chunk_size)%nat -> joined (iter_content chunk_size data) = data.
Proof.
  intros Hpos. unfold iter_content.
  rewrite joined_string_of_list_ascii, slices_concat by (auto; lia).
  apply string_of_list_ascii_of_string.
Qed.



Lemma write_chunks_spec (filename : string) (chunks : list string) :
  forall w content,
    fs w !! filename = Some content ->
    write_chunks filename chunks w =
      (Ok tt, mkWorld (net w) (calls w)
                (<[filename := content +:+ joined chunks]> (fs w)) (trace w)).
Proof.
  induction chunks as [| chunk rest IH]; intros w content Hfile.
  - simpl. rewrite string_app_nil_r, insert_id by exact Hfile.
    destruct w; reflexivity.
  - simpl write_chunks. destruct (String.eqb_spec chunk "") as [-> | Hne].
    + unfold bind at 1. unfold ret at 1. rewrite (IH w content Hfile).
      reflexivity.
    + unfold bind at 1. unfold file_write, set_file. rewrite Hfile. simpl default.
      rewrite (IH _ (content +:+ chunk)) by (simpl; apply lookup_insert_eq).
      simpl. rewrite insert_insert_eq, string_app_assoc. reflexivity.
Qed.

End Download.

Section Download_size.


End Download_size.



Section Resolver.

(** The whole behaviour of the resolver, by the outcome of its one
    call. *)
Lemma get_wallpaper_details_spec (pic_id : string) (w : world) :
  get_wallpaper_details pic_id w =
  match net w (calls w) (detail_request pic_id) with
  | Responds r =>
      if status_code r =? 200 then
        match json_path r with
        | Decoded original_image_url =>
            (Ok (Some original_image_url), advance w 1 [EvRequest (detail_request pic_id)])
        | Undecodable e =>
            if is_RequestException e then
              (Ok None, advance w 1 [EvRequest (detail_request pic_id);
                                     EvPrint (MsgRequestFailed e)])
            else (Raise e, advance w 1 [EvRequest (detail_request pic_id)])
        end
      else if (400 <=? status_code r) && (status_code r <? 600) then
        (Ok None, advance w 1 [EvRequest (detail_request pic_id);
                               EvPrint (MsgRequestFailed (HTTPError (status_code r)))])
      else (Ok None, advance w 1 [EvRequest (detail_request pic_id)])
  | Fails e =>
      if is_RequestException e then
        (Ok None, advance w 1 [EvRequest (detail_request pic_id);
                               EvPrint (MsgRequestFailed e)])
      else (Raise e, advance w 1 [EvRequest (detail_request pic_id)])
  end.
Proof.
  unfold get_wallpaper_details, try_except, bind, requests_get.
  fold (detail_request pic_id).
  destruct (net w (calls w) (detail_request pic_id)) as [r | e]; simpl.
  - destruct (status_code r =? 200); simpl.
    + destruct (json_path r) as [p | e]; simpl; [reflexivity |].
      destruct (is_RequestException e); simpl; [| reflexivity].
      unfold advance; simpl. now rewrite <- app_assoc.
    + unfold raise_for_status.
      destruct ((400 <=? status_code r) && (status_code r <? 600)); simpl;
        [| reflexivity].
      unfold advance; simpl. now rewrite <- app_assoc.
  - destruct (is_RequestException e); simpl; [| reflexivity].
    unfold advance; simpl. now rewrite <- app_assoc.
Qed.

(** What the resolver does in every world.  It calls [requests.get]
    itself, once, with no
    proxies and no retry: after it the call counter has moved by one and
    the trace holds that one request followed by at most one printed
    line, with no log entry and no sleep.  A response of status 200
    whose body holds the path gives the path; a [RequestException] from
    the call, or the [HTTPError] of a 4xx or 5xx status, is printed and
    gives nothing; any other status gives nothing and prints nothing. *)
Theorem get_wallpaper_details_direct (pic_id : string) (w : world) :
  let run := get_wallpaper_details pic_id w in
  req_proxies (detail_request pic_id) = None
  /\ (exists printed,
        snd run = advance w 1 (EvRequest (detail_request pic_id) :: printed)
        /\ (printed = [] \/ exists e, printed = [EvPrint (MsgRequestFailed e)]))
  /\ (forall r p,
        net w (calls w) (detail_request pic_id) = Responds r ->
        status_code r = 200 -> json_path r = Decoded p ->
        run = (Ok (Some p), advance w 1 [EvRequest (detail_request pic_id)]))
  /\ (forall e,
        net w (calls w) (detail_request pic_id) = Fails e ->
        is_RequestException e = true ->
        run = (Ok None, advance w 1 [EvRequest (detail_request pic_id);
                                     EvPrint (MsgRequestFailed e)]))
  /\ (forall r,
        net w (calls w) (detail_request pic_id) = Responds r ->
        400 <= status_code r < 600 ->
        run = (Ok None,
               advance w 1 [EvRequest (detail_request pic_id);
                            EvPrint (MsgRequestFailed (HTTPError (status_code r)))]))
  /\ (forall r,
        net w (calls w) (detail_request pic_id) = Responds r ->
        status_code r <> 200 -> ~ 400 <= status_code r < 600 ->
        run = (Ok None, advance w 1 [EvRequest (detail_request pic_id)])).
Proof.
  intros run. subst run. rewrite get_wallpaper_details_spec.
  split; [reflexivity |]. split; [| repeat split].
  - destruct (net w (calls w) (detail_request pic_id)) as [r | e].
    + destruct (status_code r =? 200).
      * destruct (json_path r) as [p | e]; [eexists; split; [reflexivity | now left] |].
        destruct (is_RequestException e); eexists; (split; [reflexivity |]);
          [right; eexists; reflexivity | now left].
      * destruct ((400 <=? status_code r) && (status_code r <? 600));
          eexists; (split; [reflexivity |]);
          [right; eexists; reflexivity | now left].
    + destruct (is_RequestException e); eexists; (split; [reflexivity |]);
        [right; eexists; reflexivity | now left].
  - intros r p -> H200 ->. rewrite H200. reflexivity.
  - intros e -> ->. reflexivity.
  - intros r -> Hrange.
    replace (status_code r =? 200) with false by (symmetry; apply Z.eqb_neq; lia).
    replace ((400 <=? status_code r) && (status_code r <? 600)) with true; [reflexivity |].
    symmetry. apply andb_true_iff. split; [apply Z.leb_le | apply Z.ltb_lt]; lia.
  - intros r -> Hne Hout.
    replace (status_code r =? 200) with false by (symmetry; now apply Z.eqb_neq).
    replace ((400 <=? status_code r) && (status_code r <? 600)) with false; [reflexivity |].
    symmetry. apply andb_false_iff.
    destruct (Z.leb_spec 400 (status_code r)); [right | now left].
    apply Z.ltb_ge. lia.
Qed.

End Resolver.

(** Where the first answer is 429 the resolver does not give what the
    resolver through the executor gives. *)
Lemma get_wallpaper_details_bypasses_executor :
  ~ resolves_through_executor "5gqdq1" world_limited_once.
Proof.
  intros [Hsame _]. vm_compute in Hsame. discriminate Hsame.
Qed.

Lemma get_wallpaper_details_direct_witness :
  get_wallpaper_details "5gqdq1" world_image_present
  = (Ok (Some "https://w.wallhaven.cc/full/5g/wallhaven-5gqdq1.jpg"),
     advance world_image_present 1 [EvRequest (detail_request "5gqdq1")]).
Proof.
  destruct (get_wallpaper_details_direct "5gqdq1" world_image_present)
    as (_ & _ & Hok & _).
  apply (Hok response_detail); reflexivity.
Defined.

Section Parser.

Lemma values_of_cons k p pairs :
  values_of k (p :: pairs) =
  if decide (p.1 = k) then p.2 :: values_of k pairs else values_of k pairs.
Proof.
  unfold values_of. rewrite filter_cons. destruct (decide (p.1 = k)); reflexivity.
Qed.

(** The loop of [parse_qs], from any dictionary: a name keeps the values
    it had and gains those of its pairs, in order. *)
Lemma parse_qs_fold_lookup (pairs : list (string * string)) :
  forall (parsed_result : gmap string (list string)) (k : string),
    foldl parse_qs_step parsed_result pairs !! k =
    match parsed_result !! k, values_of k pairs with
    | None, [] => None
    | None, vs => Some vs
    | Some old, vs => Some (old ++ vs)
    end.
Proof.
  induction pairs as [| [name value] pairs IH]; intros parsed_result k.
  - simpl. destruct (parsed_result !! k); [now rewrite app_nil_r | reflexivity].
  - simpl foldl. rewrite IH, values_of_cons. unfold parse_qs_step. simpl.
    destruct (decide (name = k)) as [-> | Hne].
    + destruct (parsed_result !! k) as [old |] eqn:Hk.
      * rewrite lookup_insert_eq. now rewrite <- app_assoc.
      * rewrite lookup_insert_eq. reflexivity.
    + destruct (parsed_result !! name); rewrite lookup_insert_ne by exact Hne;
        reflexivity.
Qed.

Lemma parse_qs_lookup (qs k : string) :
  parse_qs qs !! k =
  match values_of k (parse_qsl qs) with
  | [] => None
  | vs => Some vs
  end.
Proof.
  unfold parse_qs. rewrite parse_qs_fold_lookup, lookup_empty. reflexivity.
Qed.

Lemma unquote_nonempty (s : string) : s <> "" -> unquote s <> "".
Proof.
  destruct s as [| c s]; [congruence |]. intros _. simpl.
  destruct (Ascii.eqb c "%"); [| discriminate].
  destruct s as [| h [| l s]]; try discriminate.
  destruct (hex_value h), (hex_value l); discriminate.
Qed.

Lemma decode_nonempty (s : string) : s <> "" -> decode s <> "".
Proof.
  intros Hs. apply unquote_nonempty. destruct s; [congruence | discriminate].
Qed.

(** What [parse_qsl] keeps of a parameter is its occurrences with
    something after the equals sign. *)
Lemma values_of_parse_qsl (k qs : string) :
  values_of k (parse_qsl qs) = filter (fun v => v <> "") (occurrences k qs).
Proof.
  unfold parse_qsl, occurrences, query_fields.
  induction (split_on "&" qs) as [| field fields IH]; [reflexivity |].
  simpl omap. unfold parse_field at 1.
  destruct (partition_eq field) as [[name value] |]; [| exact IH].
  fold (decode name) (decode value).
  destruct (String.eqb_spec value "") as [-> | Hvalue].
  - rewrite filter_cons. simpl.
    destruct (decide (decode name = k)); [| exact IH].
    simpl map. rewrite filter_cons.
    destruct (decide (decode "" <> "")) as [Hbad | _]; [| exact IH].
    now contradict Hbad.
  - rewrite values_of_cons, filter_cons. simpl.
    destruct (decide (decode name = k)); [| exact IH].
    simpl map. rewrite filter_cons.
    destruct (decide (decode value <> "")) as [_ | Hbad].
    + f_equal. exact IH.
    + contradict Hbad. now apply decode_nonempty.
Qed.

Lemma parse_url_params_lookup (_url qs k : string) :
  urlparse_query _url = Ok qs ->
  exists m,
    parse_url_params _url = Ok m
    /\ m !! k =
       match filter (fun v => v <> "") (occurrences k qs) with
       | [] => None
       | [v] => Some (Scalar v)
       | vs => Some (Sequence vs)
       end.
Proof.
  intros Hq. unfold parse_url_params. rewrite Hq. eexists. split; [reflexivity |].
  rewrite lookup_fmap, parse_qs_lookup, values_of_parse_qsl.
  destruct (filter _ (occurrences k qs)) as [| v [| v' vs]]; reflexivity.
Qed.

End Parser.

(** C8, amended: for a link [urlparse] accepts, the parser returns a
    mapping in which a parameter with exactly one occurrence of non-empty
    value is mapped to that value, a parameter with several such
    occurrences to the sequence of those values in order of appearance,
    and a parameter with no such occurrence to nothing: occurrences with
    an empty value are not counted.  A link without a query string gives
    the empty mapping. *)
Theorem parse_url_params_counts_nonblank (_url qs : string) :
  urlparse_query _url = Ok qs ->
  exists m,
    parse_url_params _url = Ok m
    /\ (forall k,
          m !! k =
          match filter (fun v => v <> "") (occurrences k qs) with
          | [] => None
          | [v] => Some (Scalar v)
          | vs => Some (Sequence vs)
          end)
    /\ (qs = "" -> m = ∅).
Proof.
  intros Hq.
  destruct (parse_url_params_lookup _url qs "" Hq) as (m & Hm & _).
  exists m. split; [exact Hm |]. split.
  - intros k. destruct (parse_url_params_lookup _url qs k Hq) as (m' & Hm' & Hk).
    rewrite Hm in Hm'. injection Hm' as <-. exact Hk.
  - intros ->. apply map_eq. intros k.
    destruct (parse_url_params_lookup _url "" k Hq) as (m' & Hm' & Hk).
    rewrite Hm in Hm'. injection Hm' as <-. rewrite Hk, lookup_empty. reflexivity.
Qed.

Lemma parse_url_params_counts_nonblank_witness :
  exists m,
    parse_url_params "https://wallhaven.cc/search?q=like%3A5gqdq1&page=3" = Ok m
    /\ (forall k,
          m !! k =
          match filter (fun v => v <> "") (occurrences k "q=like%3A5gqdq1&page=3") with
          | [] => None
          | [v] => Some (Scalar v)
          | vs => Some (Sequence vs)
          end)
    /\ ("q=like%3A5gqdq1&page=3" = "" -> m = ∅).
Proof.
  apply (parse_url_params_counts_nonblank
           "https://wallhaven.cc/search?q=like%3A5gqdq1&page=3" "q=like%3A5gqdq1&page=3").
  vm_compute. reflexivity.
Defined.

(** C8 fails where a parameter occurs twice and one value is empty: the
    parameter is mapped to the one value that is not, as a scalar. *)
Lemma parse_url_params_drops_blank_occurrence :
  ~ maps_every_occurrence "https://wallhaven.cc/search?a=1&a=".
Proof.
  intros Hclaim.
  specialize (Hclaim "a=1&a=" {[ "a" := Scalar "1" ]} "a"
                ltac:(vm_compute; reflexivity) ltac:(vm_compute; reflexivity)).
  vm_compute in Hclaim. discriminate Hclaim.
Qed.

Lemma filter_nonblank_of_blank (vs : list string) :
  Forall (fun v => v = "") vs -> filter (fun v => v <> "") vs = [].
Proof.
  induction 1 as [| v vs Hv _ IH]; [reflexivity |].
  rewrite filter_cons. destruct (decide (v <> "")); [contradiction | exact IH].
Qed.

(** C10, amended: for a link [urlparse] accepts, a parameter whose every
    occurrence in the query string has an empty value is not in the
    mapping, exactly as a parameter that does not occur. *)
Theorem parse_url_params_omits_blank (_url qs k : string) :
  urlparse_query _url = Ok qs ->
  Forall (fun v => v = "") (occurrences k qs) ->
  exists m, parse_url_params _url = Ok m /\ m !! k = None.
Proof.
  intros Hq Hblank.
  destruct (parse_url_params_lookup _url qs k Hq) as (m & Hm & Hk).
  exists m. split; [exact Hm |]. rewrite Hk.
  now rewrite (filter_nonblank_of_blank _ Hblank).
Qed.

Lemma parse_url_params_omits_blank_witness :
  occurrences "q" "q=&page=3" = [""]
  /\ exists m,
       parse_url_params "https://wallhaven.cc/search?q=&page=3" = Ok m /\ m !! "q" = None.
Proof.
  split; [vm_compute; reflexivity |].
  apply (parse_url_params_omits_blank "https://wallhaven.cc/search?q=&page=3" "q=&page=3" "q").
  - vm_compute. reflexivity.
  - vm_compute. repeat constructor.
Defined.

(** * Further properties *)

Section Executor_shape.

Variables (_url : string) (_params : option (gmap string pvalue)) (stream : bool).
Variables (retries : nat) (backoff_factor : Q).

Lemma classify_success o r :
  classify o = Success r -> o = Responds r /\ accepted r = true.
Proof.
  unfold classify, accepted. destruct o as [r' | e].
  - destruct (status_code r' =? 429) eqn:E429; [discriminate |].
    destruct ((400 <=? status_code r') && (status_code r' <? 600)) eqn:Eerr;
      [discriminate |].
    intros [= <-]. rewrite E429, Eerr. split; reflexivity.
  - destruct (is_RequestException e); discriminate.
Qed.

(** The loop of [make_request] over any list of attempts: it calls
    [requests.get] at most once per attempt and at least once when there
    is an attempt, always with the same request; the response it returns
    is an accepted one, and is the answer to the last call. *)
Lemma make_request_loop_shape (attempts : list nat) :
  forall w, exists n evs,
    snd (make_request_loop _url _params stream retries backoff_factor attempts w)
      = advance w n evs
    /\ (n <= length attempts)%nat
    /\ (attempts <> [] -> (1 <= n)%nat)
    /\ requests_made evs = repeat (executor_request _url _params stream) n
    /\ units_done evs = [] /\ results_retrieved evs = []
    /\ (forall r,
          fst (make_request_loop _url _params stream retries backoff_factor attempts w)
            = Ok (Some r) ->
          accepted r = true
          /\ exists k, n = S k
               /\ net w (k + calls w) (executor_request _url _params stream) = Responds r).
Proof.
  induction attempts as [| attempt rest IH]; intros w.
  - exists 0%nat, []. simpl. rewrite advance_nil.
    repeat split; try reflexivity; try lia; try congruence.
  - simpl make_request_loop. unfold bind.
    rewrite make_request_attempt_spec.
    destruct (classify (net w (calls w) (executor_request _url _params stream)))
      as [| e | e | r0] eqn:Ekind.
    + set (w1 := advance w 1 _).
      destruct (IH w1) as (n & evs & Hsnd & Hn & _ & Hreq & Hu & Hr & Hres).
      exists (S n). eexists. split; [| split; [| split; [| split; [| split; [| split]]]]].
      * rewrite Hsnd. subst w1. rewrite advance_advance, Nat.add_1_r. reflexivity.
      * simpl. lia.
      * lia.
      * simpl. now rewrite Hreq.
      * simpl. exact Hu.
      * simpl. exact Hr.
      * intros r Hfst. destruct (Hres r Hfst) as (Hacc & k & -> & Hnet).
        split; [exact Hacc |]. exists (S k). split; [reflexivity |].
        subst w1. simpl in Hnet. rewrite <- Hnet. f_equal. lia.
    + destruct (Z.of_nat attempt <? Z.of_nat retries - 1).
      * set (w1 := advance w 1 _).
        destruct (IH w1) as (n & evs & Hsnd & Hn & _ & Hreq & Hu & Hr & Hres).
        exists (S n). eexists. split; [| split; [| split; [| split; [| split; [| split]]]]].
        -- rewrite Hsnd. subst w1. rewrite advance_advance, Nat.add_1_r. reflexivity.
        -- simpl. lia.
        -- lia.
        -- simpl. now rewrite Hreq.
        -- simpl. exact Hu.
        -- simpl. exact Hr.
        -- intros r Hfst. destruct (Hres r Hfst) as (Hacc & k & -> & Hnet).
           split; [exact Hacc |]. exists (S k). split; [reflexivity |].
           subst w1. simpl in Hnet. rewrite <- Hnet. f_equal. lia.
      * exists 1%nat. eexists. simpl.
        repeat split; try reflexivity; try lia; try congruence.
    + exists 1%nat. eexists. simpl.
      repeat split; try reflexivity; try lia; try congruence.
    + exists 1%nat. eexists. simpl.
      apply classify_success in Ekind as [Hnet Hacc].
      split; [reflexivity |]. split; [lia |]. split; [lia |].
      split; [reflexivity |]. split; [reflexivity |]. split; [reflexivity |].
      intros r' [= <-]. split; [exact Hacc |].
      exists 0%nat. split; [reflexivity | exact Hnet].
Qed.

End Executor_shape.

(** X1: whatever the service does, [make_request] calls [requests.get]
    at least once and at most three times, every time with the same url,
    parameters and stream flag and with the configured proxies, and it
    leaves the file system as it was. *)
Theorem make_request_at_most_three_requests
    (_url : string) (_params : option (gmap string pvalue)) (stream : bool) (w : world) :
  exists n evs,
    (1 <= n <= 3)%nat
    /\ calls (snd (make_request _url _params stream w)) = (n + calls w)%nat
    /\ fs (snd (make_request _url _params stream w)) = fs w
    /\ trace (snd (make_request _url _params stream w)) = trace w ++ evs
    /\ requests_made evs = repeat (mkRequest _url _params (Some proxies) stream) n.
Proof.
  unfold make_request, make_request_with.
  destruct (make_request_loop_shape _url _params stream 3 (3 # 10) (seq 0 3) w)
    as (n & evs & Hsnd & Hle & Hge & Hreq & _).
  exists n, evs. rewrite Hsnd. simpl in Hle.
  split; [split; [apply Hge; discriminate | exact Hle] |].
  repeat split; try reflexivity. exact Hreq.
Qed.

(** X2: a response [make_request] returns never has status 429 nor a
    status from 400 to 599, and it is the answer to the last call made,
    one of the first three. *)
Theorem make_request_returns_accepted
    (_url : string) (_params : option (gmap string pvalue)) (stream : bool)
    (r : Response) (w w' : world) :
  make_request _url _params stream w = (Ok (Some r), w') ->
  status_code r <> 429
  /\ ~ 400 <= status_code r < 600
  /\ exists k, (k < 3)%nat
       /\ net w (k + calls w) (mkRequest _url _params (Some proxies) stream) = Responds r
       /\ calls w' = (S k + calls w)%nat.
Proof.
  intros Hrun. unfold make_request, make_request_with in Hrun.
  destruct (make_request_loop_shape _url _params stream 3 (3 # 10) (seq 0 3) w)
    as (n & evs & Hsnd & Hle & _ & _ & _ & _ & Hres).
  rewrite Hrun in Hsnd, Hres. simpl in Hsnd, Hres, Hle.
  destruct (Hres r eq_refl) as (Hacc & k & -> & Hnet).
  unfold accepted in Hacc. apply andb_true_iff in Hacc as [H429 Herr].
  apply negb_true_iff in H429, Herr. apply Z.eqb_neq in H429.
  apply andb_false_iff in Herr.
  split; [exact H429 |]. split.
  - intros [Hlo Hhi]. destruct Herr as [Herr | Herr].
    + apply Z.leb_gt in Herr. lia.
    + apply Z.ltb_ge in Herr. lia.
  - exists k. split; [lia |]. split; [exact Hnet |]. rewrite Hsnd. reflexivity.
Qed.

Lemma make_request_returns_accepted_witness :
  status_code response_detail <> 429
  /\ ~ 400 <= status_code response_detail < 600
  /\ exists k, (k < 3)%nat
       /\ net world_limited_once (k + calls world_limited_once)
            (mkRequest "https://wallhaven.cc/api/v1/w/5gqdq1" None (Some proxies) false)
          = Responds response_detail
       /\ calls (snd (make_request "https://wallhaven.cc/api/v1/w/5gqdq1" None false
                        world_limited_once))
          = (S k + calls world_limited_once)%nat.
Proof.
  apply (make_request_returns_accepted "https://wallhaven.cc/api/v1/w/5gqdq1" None false
           response_detail world_limited_once).
  vm_compute. reflexivity.
Defined.

Section Executor_retries.

Variables (_url : string) (_params : option (gmap string pvalue)) (stream : bool).

(** X3: when the first [k] attempts, [k] being 0, 1 or 2, are each
    answered by status 429 or end in a [RequestException], and the next
    attempt is answered by an accepted response, [make_request] returns
    that response after [k + 1] calls, having slept [0.3 * 2^i] seconds
    after attempt [i] and never logged the exhaustion. *)
Theorem make_request_succeeds_after_retries
    (kinds : nat -> attempt_kind) (k : nat) (r : Response) (w : world) :
  (k < 3)%nat ->
  (forall i, (i < k)%nat ->
     classify (net w (i + calls w) (executor_request _url _params stream)) = kinds i
     /\ retried (kinds i) = true) ->
  classify (net w (k + calls w) (executor_request _url _params stream)) = Success r ->
  let evs :=
    concat (map (fun i => retry_events (executor_request _url _params stream)
                            (3 # 10) i (kinds i)) (seq 0 k))
    ++ [EvRequest (executor_request _url _params stream)] in
  make_request _url _params stream w = (Ok (Some r), advance w (S k) evs)
  /\ sleeps evs = map (fun i => Seconds (backoff (3 # 10) i)) (seq 0 k)
  /\ ~ In (MsgGiveUp 3) (error_entries evs).
Proof.
  intros Hk Hretry Hok evs. subst evs.
  unfold make_request, make_request_with. simpl seq. simpl make_request_loop.
  unfold bind.
  destruct k as [| [| [| k]]]; [| | | lia]; cbn [seq map concat].
  - simpl in Hok. rewrite make_request_attempt_spec, Hok. simpl.
    unfold ret. split; [reflexivity |]. split; [reflexivity |]. intros [].
  - destruct (Hretry 0%nat ltac:(lia)) as [H0 R0]. simpl in H0, Hok.
    rewrite make_request_attempt_spec, H0.
    destruct (kinds 0%nat) as [| e0 | e0 | r0]; try discriminate R0; simpl.
    + rewrite make_request_attempt_spec. simpl. rewrite Hok. simpl.
      rewrite advance_advance. unfold ret.
      split; [reflexivity |]. split; [reflexivity |]. intros [].
    + rewrite make_request_attempt_spec. simpl. rewrite Hok. simpl.
      rewrite advance_advance. unfold ret.
      split; [reflexivity |]. split; [reflexivity |].
      intros [Hin | []]; discriminate Hin.
  - destruct (Hretry 0%nat ltac:(lia)) as [H0 R0].
    destruct (Hretry 1%nat ltac:(lia)) as [H1 R1]. simpl in H0, H1, Hok.
    rewrite make_request_attempt_spec, H0.
    destruct (kinds 0%nat) as [| e0 | e0 | r0]; try discriminate R0; simpl;
      rewrite make_request_attempt_spec; simpl; rewrite H1;
      destruct (kinds 1%nat) as [| e1 | e1 | r1]; try discriminate R1; simpl;
      rewrite make_request_attempt_spec; simpl; rewrite Hok; simpl;
      rewrite !advance_advance; unfold ret;
      (split; [reflexivity |]); (split; [reflexivity |]);
      simpl; intuition discriminate.
Qed.

(** X4: when all three attempts end in a [RequestException] (the
    [HTTPError] of a 4xx or 5xx status included), [make_request] returns
    [None] after exactly three calls, has slept 0.3 and 0.6 seconds before
    the two retries and not after the last attempt, and has logged each
    failure and then the exhaustion at error level. *)
Theorem make_request_gives_up_after_three_failures (e : nat -> exn) (w : world) :
  (forall i, (i < 3)%nat ->
     classify (net w (i + calls w) (executor_request _url _params stream))
     = Recoverable (e i)) ->
  exists evs,
    make_request _url _params stream w = (Ok None, advance w 3 evs)
    /\ sleeps evs = [Seconds (backoff (3 # 10) 0); Seconds (backoff (3 # 10) 1)]
    /\ error_entries evs
       = [MsgRequestFailed (e 0%nat); MsgRequestFailed (e 1%nat);
          MsgRequestFailed (e 2%nat); MsgGiveUp 3]
    /\ List.last evs (EvPrint MsgNoOriginalUrl) = EvLog ERROR (MsgGiveUp 3).
Proof.
  intros H. eexists. split; [apply make_request_failures_exhausted; exact H |].
  repeat split; reflexivity.
Qed.

(** X5: an exception of [requests.get] that is not a [RequestException]
    is neither caught, logged nor retried: it leaves [make_request] after
    the one call. *)
Theorem make_request_propagates_other_exceptions (e : exn) (w : world) :
  net w (calls w) (mkRequest _url _params (Some proxies) stream) = Fails e ->
  is_RequestException e = false ->
  make_request _url _params stream w
  = (Raise e, advance w 1 [EvRequest (mkRequest _url _params (Some proxies) stream)]).
Proof.
  intros Hnet Hexn. unfold make_request, make_request_with. simpl seq.
  simpl make_request_loop. unfold bind.
  rewrite make_request_attempt_spec. unfold executor_request, classify.
  rewrite Hnet, Hexn. reflexivity.
Qed.

End Executor_retries.

Lemma make_request_succeeds_after_retries_witness :
  make_request "https://wallhaven.cc/api/v1/w/5gqdq1" None false world_limited_once
  = (Ok (Some response_detail),
     advance world_limited_once 2
       [EvRequest (executor_request "https://wallhaven.cc/api/v1/w/5gqdq1" None false);
        EvLog INFO (MsgRateLimited (backoff (3 # 10) 0));
        EvSleep (Seconds (backoff (3 # 10) 0));
        EvRequest (executor_request "https://wallhaven.cc/api/v1/w/5gqdq1" None false)]).
Proof.
  destruct (make_request_succeeds_after_retries
              "https://wallhaven.cc/api/v1/w/5gqdq1" None false
              (fun _ => RateLimited) 1 response_detail world_limited_once)
    as [Hrun _].
  - lia.
  - intros i Hi. assert (i = 0%nat) as -> by lia. split; reflexivity.
  - reflexivity.
  - exact Hrun.
Defined.

Lemma make_request_gives_up_after_three_failures_witness :
  exists evs,
    make_request "https://wallhaven.cc/api/v1/search" None false world_unreachable
    = (Ok None, advance world_unreachable 3 evs)
    /\ sleeps evs = [Seconds (backoff (3 # 10) 0); Seconds (backoff (3 # 10) 1)]
    /\ error_entries evs
       = [MsgRequestFailed ConnectionError; MsgRequestFailed ConnectionError;
          MsgRequestFailed ConnectionError; MsgGiveUp 3]
    /\ List.last evs (EvPrint MsgNoOriginalUrl) = EvLog ERROR (MsgGiveUp 3).
Proof.
  apply (make_request_gives_up_after_three_failures
           "https://wallhaven.cc/api/v1/search" None false
           (fun _ => ConnectionError) world_unreachable).
  intros i Hi. reflexivity.
Defined.

Lemma make_request_propagates_other_exceptions_witness :
  make_request "https://wallhaven.cc/api/v1/search" None false world_type_error
  = (Raise (TypeError "params"),
     advance world_type_error 1
       [EvRequest (mkRequest "https://wallhaven.cc/api/v1/search" None (Some proxies) false)]).
Proof.
  apply (make_request_propagates_other_exceptions
           "https://wallhaven.cc/api/v1/search" None false (TypeError "params")
           world_type_error); reflexivity.
Defined.

Section Collector.

Variables (base_url : string) (_params : gmap string pvalue).

(** X6: the single-shot collector whose request is answered at the first
    attempt by an accepted response.  With status 200 it returns the
    identifiers of the body in their order and logs the success; with any
    other status it returns the empty list and logs the status at error
    level; with status 200 and a body that does not decode, the exception
    of the decoding leaves the collector and nothing is logged.  In every
    case one request has been made, with the caller's parameters. *)
Theorem fetch_wallpaper_ids_single_answered (r : Response) (w : world) :
  classify (net w (calls w) (mkRequest base_url (Some _params) (Some proxies) false))
    = Success r ->
  let rq := mkRequest base_url (Some _params) (Some proxies) false in
  fetch_wallpaper_ids_single base_url _params w =
  if status_code r =? 200 then
    match json_ids r with
    | Decoded ids => (Ok ids, advance w 1 [EvRequest rq; EvLog INFO MsgIdsFetched])
    | Undecodable e => (Raise e, advance w 1 [EvRequest rq])
    end
  else
    (Ok [], advance w 1 [EvRequest rq; EvLog ERROR (MsgStatusFailed (status_code r))]).
Proof.
  intros Hok rq. unfold fetch_wallpaper_ids_single.
  rewrite (bind_ok _ _ _ _ _ (make_request_first_attempt _ _ _ _ _ Hok)).
  simpl attr_status_code. unfold bind at 1. unfold ret at 1.
  destruct (status_code r =? 200).
  - unfold response_ids, from_decoded. destruct (json_ids r) as [ids | e].
    + unfold bind, ret, log_and_print. cbv beta iota.
      rewrite emit_advance. cbv beta iota. rewrite advance_advance. reflexivity.
    + reflexivity.
  - unfold bind, ret, log_and_print. rewrite emit_advance. cbv beta iota.
    rewrite advance_advance. reflexivity.
Qed.

(** X8: when [end_page] is below [start_page] the paginated collector
    returns the empty list at once: no request, no sleep, no log entry. *)
Theorem fetch_wallpaper_ids_paginated_empty_range (start_page end_page : Z) (w : world) :
  end_page < start_page ->
  fetch_wallpaper_ids_paginated base_url _params start_page end_page w = (Ok [], w).
Proof.
  intros Hlt. unfold fetch_wallpaper_ids_paginated, range.
  replace (Z.to_nat (end_page + 1 - start_page)) with 0%nat by lia.
  reflexivity.
Qed.

Lemma total_ids_concat (r : nat -> Response) (ids : nat -> list string) (n : nat) :
  length (concat (map (fun i => page_ids (r i) (ids i)) (seq 0 n))) = total_ids r ids n.
Proof.
  induction n as [| n IH]; [reflexivity |].
  rewrite seq_S, map_app, concat_app, length_app, IH. simpl.
  rewrite app_nil_r. reflexivity.
Qed.

(** X7: the paginated collector over pages [start_page] to [end_page]
    that are each answered at the first attempt by an accepted response,
    whose body decodes when the status is 200.  It returns the
    identifiers of the pages answered by 200, page after page in
    ascending order and with repetitions kept, so that their number is
    the sum over the pages; it has made one request per page with the
    [page] parameter set to the number of that page, has slept once per
    page for a draw of uniform(1.2, 1.5), and has not touched the file
    system. *)
Theorem fetch_wallpaper_ids_paginated_collects_pages
    (start_page end_page : Z) (r : nat -> Response) (ids : nat -> list string)
    (w : world) :
  start_page <= end_page ->
  (forall i, (i < Z.to_nat (end_page + 1 - start_page))%nat ->
     classify (net w (i + calls w) (page_request base_url _params (start_page + Z.of_nat i)))
       = Success (r i)
     /\ (status_code (r i) = 200 -> json_ids (r i) = Decoded (ids i))) ->
  let n := Z.to_nat (end_page + 1 - start_page) in
  exists pic_ids w',
    fetch_wallpaper_ids_paginated base_url _params start_page end_page w = (Ok pic_ids, w')
    /\ pic_ids = concat (map (fun i => page_ids (r i) (ids i)) (seq 0 n))
    /\ length pic_ids = total_ids r ids n
    /\ calls w' = (n + calls w)%nat
    /\ fs w' = fs w
    /\ sleeps (trace w') = sleeps (trace w) ++ repeat (Uniform (12 # 10) (15 # 10)) n
    /\ requests_made (trace w')
       = requests_made (trace w)
         ++ map (fun i => page_request base_url _params (start_page + Z.of_nat i)) (seq 0 n).
Proof.
  intros Hle Hnet n.
  destruct (fetch_pages_answered base_url _params (range start_page (end_page + 1))
              r ids _params [] w) as (w' & Hrun & _ & Hc & Hf & Hs & Hr).
  { reflexivity. }
  { intros i p Hp. apply range_lookup in Hp as [-> Hlt]. now apply Hnet. }
  rewrite range_length in Hrun, Hc, Hs. fold n in Hrun, Hc, Hs.
  eexists _, w'. split; [exact Hrun |]. simpl.
  split; [reflexivity |]. split; [apply total_ids_concat |].
  split; [exact Hc |]. split; [exact Hf |]. split; [exact Hs |].
  rewrite Hr. unfold range. rewrite map_map. reflexivity.
Qed.

End Collector.

(** The case of a computation that appends the events [evs] and writes
    no file. *)
Ltac confined_by evs :=
  split; [reflexivity |];
  split; [simpl; lia |];
  split; [exists evs; split;
            [simpl; try rewrite app_nil_r; reflexivity
            | repeat constructor; assumption]
         | intros; reflexivity].

Section Confinement.

Variables (P : event -> Prop) (S : string -> Prop).

Lemma confined_ret {A} (a : A) : confined P S (ret a).
Proof.
  intros w. confined_by (@nil event).
Qed.

Lemma confined_raise {A} (e : exn) : confined P S (@raise A e).
Proof.
  intros w. confined_by (@nil event).
Qed.

Lemma confined_emit (ev : event) : P ev -> confined P S (emit ev).
Proof.
  intros Hev w. confined_by [ev].
Qed.

Lemma confined_requests_get (rq : request) :
  P (EvRequest rq) -> confined P S (requests_get rq).
Proof.
  intros Hev w. unfold requests_get.
  destruct (net w (calls w) rq); confined_by [EvRequest rq].
Qed.

Lemma confined_bind {A B} (m : M A) (k : A -> M B) :
  confined P S m -> (forall a, confined P S (k a)) -> confined P S (bind m k).
Proof.
  intros Hm Hk w. unfold bind.
  destruct (Hm w) as (Hn & Hc & (evs & Ht & HP) & Hf).
  destruct (m w) as [[a | e] w1]; simpl in *.
  - destruct (Hk a w1) as (Hn' & Hc' & (evs' & Ht' & HP') & Hf').
    split; [congruence |]. split; [lia |]. split.
    + exists (evs ++ evs'). rewrite Ht', Ht, app_assoc. split; [reflexivity |].
      apply Forall_app; split; assumption.
    + intros p Hp. rewrite Hf', Hf by exact Hp. reflexivity.
  - split; [exact Hn |]. split; [exact Hc |]. split; [| exact Hf].
    exists evs. split; assumption.
Qed.

Lemma confined_try_except {A} (m : M A) (h : exn -> option (M A)) :
  confined P S m ->
  (forall e k, h e = Some k -> confined P S k) ->
  confined P S (try_except m h).
Proof.
  intros Hm Hh w. unfold try_except.
  destruct (Hm w) as (Hn & Hc & (evs & Ht & HP) & Hf).
  destruct (m w) as [[a | e] w1]; simpl in *.
  - split; [exact Hn |]. split; [exact Hc |]. split; [| exact Hf].
    exists evs. split; assumption.
  - destruct (h e) as [k |] eqn:Ehandler.
    + destruct (Hh e k Ehandler w1) as (Hn' & Hc' & (evs' & Ht' & HP') & Hf').
      split; [congruence |]. split; [lia |]. split.
      * exists (evs ++ evs'). rewrite Ht', Ht, app_assoc. split; [reflexivity |].
        apply Forall_app; split; assumption.
      * intros p Hp. rewrite Hf', Hf by exact Hp. reflexivity.
    + split; [exact Hn |]. split; [exact Hc |]. split; [| exact Hf].
      exists evs. split; assumption.
Qed.

Lemma confined_set_file (path content : string) :
  S path -> confined P S (set_file path content).
Proof.
  intros Hpath w.
  split; [reflexivity |]. split; [simpl; lia |]. split.
  - exists []. simpl. rewrite app_nil_r. split; [reflexivity | constructor].
  - intros p Hp. simpl. apply lookup_insert_ne. intros ->. contradiction.
Qed.

Lemma confined_file_write (path data : string) :
  S path -> confined P S (file_write path data).
Proof. intros Hpath w. apply confined_set_file. exact Hpath. Qed.

Lemma confined_open_append (path : string) :
  S path -> confined P S (open_append path).
Proof.
  intros Hpath w. unfold open_append. destruct (fs w !! path).
  - apply (confined_ret tt).
  - apply confined_set_file. exact Hpath.
Qed.

Lemma confined_file_read (path : string) : confined P S (file_read path).
Proof.
  intros w. unfold file_read. destruct (fs w !! path); confined_by (@nil event).
Qed.

Lemma confined_os_path_exists (path : string) : confined P S (os_path_exists path).
Proof.
  intros w. confined_by (@nil event).
Qed.

End Confinement.

Lemma confined_weaken (P Q : event -> Prop) (S T : string -> Prop) {A} (m : M A) :
  (forall ev, P ev -> Q ev) -> (forall p, S p -> T p) ->
  confined P S m -> confined Q T m.
Proof.
  intros HPQ HST Hm w. destruct (Hm w) as (Hn & Hc & (evs & Ht & HP) & Hf).
  split; [exact Hn |]. split; [exact Hc |]. split.
  - exists evs. split; [exact Ht |]. eapply Forall_impl; [exact HP | exact HPQ].
  - intros p Hp. apply Hf. intros Hs. apply Hp, HST, Hs.
Qed.

Ltac confine :=
  repeat first
    [ apply confined_ret
    | apply confined_raise
    | apply confined_bind; [| intros ?]
    | apply confined_emit
    | apply confined_requests_get
    | apply confined_file_read
    | apply confined_os_path_exists
    | apply confined_set_file
    | apply confined_file_write
    | apply confined_open_append
    | match goal with
      | |- confined _ _ (if ?b then _ else _) => destruct b
      | |- confined _ _ (match ?x with _ => _ end) => destruct x
      end ].

Section Confined_functions.

Lemma confined_make_request_attempt _url _params stream retries backoff_factor attempt :
  confined (executor_event _url _params stream) no_path
    (make_request_attempt _url _params stream retries backoff_factor attempt).
Proof.
  unfold make_request_attempt, raise_for_status, log_and_print, time_sleep.
  apply confined_try_except.
  - confine; simpl; auto.
  - intros e k Hk. destruct (is_RequestException e); [| discriminate].
    injection Hk as <-. confine; simpl; auto.
Qed.

Lemma confined_make_request_loop _url _params stream retries backoff_factor attempts :
  confined (executor_event _url _params stream) no_path
    (make_request_loop _url _params stream retries backoff_factor attempts).
Proof.
  induction attempts as [| attempt rest IH]; simpl.
  - apply confined_ret.
  - apply confined_bind; [apply confined_make_request_attempt |].
    intros [| v]; [exact IH | apply confined_ret].
Qed.

Lemma confined_make_request _url _params stream :
  confined (executor_event _url _params stream) no_path
    (make_request _url _params stream).
Proof. apply confined_make_request_loop. Qed.

Lemma executor_event_collector base_url _params ev :
  executor_event base_url (Some _params) false ev -> collector_event base_url ev.
Proof.
  destruct ev as [rq | | | | |]; simpl; auto.
  intros ->. simpl. repeat split. eexists; reflexivity.
Qed.

Lemma confined_collector_request base_url _params :
  confined (collector_event base_url) no_path (make_request base_url (Some _params) false).
Proof.
  eapply confined_weaken; [| | apply confined_make_request]; [| auto].
  apply executor_event_collector.
Qed.

Lemma confined_attr_status_code P S _response :
  confined P S (attr_status_code _response).
Proof. unfold attr_status_code. confine. Qed.

Lemma confined_response_ids P S _response :
  confined P S (response_ids _response).
Proof. unfold response_ids, from_decoded. confine. Qed.

Lemma confined_fetch_wallpaper_ids_single base_url _params :
  confined (collector_event base_url) no_path
    (fetch_wallpaper_ids_single base_url _params).
Proof.
  unfold fetch_wallpaper_ids_single, log_and_print.
  apply confined_bind; [apply confined_collector_request | intros _response].
  apply confined_bind; [apply confined_attr_status_code | intros status].
  destruct (status =? 200).
  - apply confined_bind; [apply confined_response_ids | intros ids].
    confine; simpl; auto.
  - confine; simpl; auto.
Qed.

Lemma confined_fetch_pages base_url pages :
  forall _params pic_ids,
    confined (collector_event base_url) no_path
      (fetch_pages base_url _params pages pic_ids).
Proof.
  induction pages as [| _page rest IH]; intros _params pic_ids; simpl.
  - apply confined_ret.
  - unfold log_and_print, time_sleep.
    apply confined_bind; [apply confined_collector_request | intros _response].
    apply confined_bind; [apply confined_attr_status_code | intros status].
    apply confined_bind.
    + destruct (status =? 200).
      * apply confined_bind; [apply confined_response_ids | intros ids].
        confine; simpl; auto.
      * confine; simpl; auto.
    + intros pic_ids'. apply confined_bind; [apply confined_emit; simpl; auto |].
      intros _. apply IH.
Qed.

Lemma confined_get_wallpaper_details pic_id :
  confined (unit_event pic_id) no_path (get_wallpaper_details pic_id).
Proof.
  unfold get_wallpaper_details, raise_for_status, from_decoded, print.
  apply confined_try_except.
  - confine; simpl; auto.
  - intros e k Hk. destruct (is_RequestException e); [| discriminate].
    injection Hk as <-. confine; simpl; auto.
Qed.

Lemma confined_write_chunks P filename chunks :
  confined P (fun p => p = filename) (write_chunks filename chunks).
Proof.
  induction chunks as [| chunk rest IH]; simpl.
  - apply confined_ret.
  - apply confined_bind; [| intros _; exact IH].
    destruct (String.eqb chunk ""); confine. reflexivity.
Qed.

Lemma executor_event_unit pic_id image_url ev :
  executor_event image_url None true ev -> unit_event pic_id ev.
Proof.
  destruct ev as [rq | | | | |]; simpl; auto.
  intros ->. right. repeat split.
Qed.

Lemma confined_download_image image_url filename :
  confined (executor_event image_url None true) (fun p => p = filename)
    (download_image image_url filename).
Proof.
  unfold download_image, open_truncate, log_and_print.
  apply confined_bind.
  { eapply confined_weaken; [| | apply confined_make_request]; [auto | intros p []]. }
  intros _response.
  apply confined_bind; [apply confined_attr_status_code | intros status].
  destruct _response as [r |]; [| apply confined_raise].
  destruct (status =? 200).
  - apply confined_bind; [apply confined_set_file; reflexivity | intros _].
    apply confined_bind; [apply confined_write_chunks | intros _].
    apply confined_emit. exact I.
  - apply confined_emit. exact I.
Qed.



End Confined_functions.

Section Ledger_round_trip.

Lemma rstrip_cons (c : ascii) (s : string) :
  rstrip (String c s) =
  match rstrip s with
  | EmptyString => if isspace c then EmptyString else String c EmptyString
  | t => String c t
  end.
Proof. reflexivity. Qed.

Lemma rstrip_idempotent (s : string) : rstrip (rstrip s) = rstrip s.
Proof.
  induction s as [| c s IH]; [reflexivity |].
  rewrite rstrip_cons. destruct (rstrip s) as [| d t] eqn:Et.
  - destruct (isspace c) eqn:Ec; [reflexivity |].
    rewrite rstrip_cons. simpl. now rewrite Ec.
  - rewrite rstrip_cons, IH. reflexivity.
Qed.

Lemma rstrip_head (c : ascii) (s : string) :
  rstrip (String c s) = EmptyString \/ exists t, rstrip (String c s) = String c t.
Proof.
  rewrite rstrip_cons. destruct (rstrip s); [destruct (isspace c) |]; eauto.
Qed.

Lemma lstrip_head (s : string) :
  lstrip s = EmptyString \/ exists c t, lstrip s = String c t /\ isspace c = false.
Proof.
  induction s as [| c s IH]; [now left |].
  simpl. destruct (isspace c) eqn:Ec; [exact IH | right; eauto].
Qed.

(** [strip] applied twice is [strip]. *)
Lemma strip_idempotent (s : string) : strip (strip s) = strip s.
Proof.
  unfold strip.
  destruct (lstrip_head s) as [-> | (c & t & -> & Hc)]; [reflexivity |].
  destruct (rstrip_head c t) as [-> | (u & Hu)]; [reflexivity |].
  rewrite Hu. simpl lstrip. rewrite Hc, <- Hu. apply rstrip_idempotent.
Qed.

Lemma clean_id_spec (s : string) :
  clean_id s = true ->
  strip s = s /\ string_forallb (fun c => negb (is_line_break c)) s = true.
Proof.
  unfold clean_id. intros H. apply andb_true_iff in H as [Hs Hb].
  apply String.eqb_eq in Hs. split; assumption.
Qed.

(** Reading one line that was written with its line feed. *)
Lemma readlines_from_line (line : string) :
  string_forallb (fun c => negb (is_line_break c)) line = true ->
  forall cur rest,
    readlines_from cur false (line +:+ String "010" rest)
    = (cur +:+ line) :: readlines_from "" false rest.
Proof.
  induction line as [| c line IH]; intros Hline cur rest.
  - rewrite string_app_nil_l, string_app_nil_r. reflexivity.
  - simpl in Hline. apply andb_true_iff in Hline as [Hc Hline].
    unfold is_line_break in Hc. apply negb_true_iff, orb_false_iff in Hc as [Hlf Hcr].
    rewrite string_app_cons. simpl readlines_from. rewrite Hlf, Hcr.
    rewrite (IH Hline). rewrite string_app_assoc. reflexivity.
Qed.

Lemma ledger_lines_app (a b : list string) :
  ledger_lines (a ++ b) = ledger_lines a +:+ ledger_lines b.
Proof.
  induction a as [| x a IH]; [reflexivity |].
  simpl. now rewrite IH, !string_app_assoc.
Qed.

Lemma readlines_ledger_lines (ids : list string) :
  Forall (fun s => clean_id s = true) ids ->
  readlines (ledger_lines ids) = ids.
Proof.
  unfold readlines. induction 1 as [| x ids Hx _ IH]; [reflexivity |].
  apply clean_id_spec in Hx as [_ Hx].
  simpl ledger_lines. rewrite string_app_assoc.
  change (String "010" "" +:+ ledger_lines ids) with (String "010" (ledger_lines ids)).
  rewrite (readlines_from_line x Hx), IH. reflexivity.
Qed.

Lemma map_strip_clean (ids : list string) :
  Forall (fun s => clean_id s = true) ids -> map strip ids = ids.
Proof.
  induction 1 as [| x ids Hx _ IH]; [reflexivity |].
  apply clean_id_spec in Hx as [Hx _]. simpl. now rewrite Hx, IH.
Qed.

Lemma loaded_ids_ledger_lines (ids : list string) :
  Forall (fun s => clean_id s = true) ids ->
  loaded_ids (ledger_lines ids) = list_to_set ids.
Proof.
  intros Hids. unfold loaded_ids.
  now rewrite readlines_ledger_lines, map_strip_clean.
Qed.

Lemma filter_not_loaded (old_ids pic_ids : list string) :
  filter (fun x => x ∉ (list_to_set old_ids : gset string)) pic_ids
  = filter (fun x => x ∉ old_ids) pic_ids.
Proof.
  apply list_filter_iff. intros x. now rewrite elem_of_list_to_set.
Qed.

Lemma filter_all_known (known pic_ids : list string) :
  (forall x, x ∈ pic_ids -> x ∈ known) ->
  filter (fun x => x ∉ known) pic_ids = [].
Proof.
  induction pic_ids as [| x pic_ids IH]; intros Hall; [reflexivity |].
  rewrite filter_cons. destruct (decide (x ∉ known)) as [Hnew | _].
  - exfalso. apply Hnew, Hall. now left.
  - apply IH. intros y Hy. apply Hall. now right.
Qed.

Lemma loaded_ids_stripped (content x : string) :
  x ∈ loaded_ids content -> strip x = x.
Proof.
  unfold loaded_ids. rewrite elem_of_list_to_set.
  intros Hx. apply list_elem_of_fmap in Hx as (line & -> & _).
  apply strip_idempotent.
Qed.

End Ledger_round_trip.



(** X10: a ledger file that is missing, or that holds clean identifiers
    one per line, and an input of clean identifiers.  After one run the
    file holds the old lines followed by the new ones, every identifier
    of the input is among the identifiers the file yields when loaded,
    and a second run with the same input changes no file. *)
Theorem save_wallpaper_ids_to_file_second_run_is_idle
    (pic_ids old_ids : list string) (filename : string) (w : world) :
  Forall (fun s => clean_id s = true) pic_ids ->
  Forall (fun s => clean_id s = true) old_ids ->
  fs w !! filename = Some (ledger_lines old_ids)
  \/ (fs w !! filename = None /\ old_ids = []) ->
  exists w1 w2,
    save_wallpaper_ids_to_file pic_ids filename w = (Ok tt, w1)
    /\ fs w1 !! filename
       = Some (ledger_lines (old_ids ++ filter (fun x => x ∉ old_ids) pic_ids))
    /\ (forall x, x ∈ pic_ids ->
          x ∈ loaded_ids (ledger_lines (old_ids ++ filter (fun x => x ∉ old_ids) pic_ids)))
    /\ save_wallpaper_ids_to_file pic_ids filename w1 = (Ok tt, w2)
    /\ fs w2 = fs w1.
Proof.
  intros Hpic Hold Hfile.
  assert (Hcontent : default "" (fs w !! filename) = ledger_lines old_ids).
  { destruct Hfile as [-> | [-> ->]]; reflexivity. }
  assert (Hnew : Forall (fun s => clean_id s = true)
                   (old_ids ++ filter (fun x => x ∉ old_ids) pic_ids)).
  { apply Forall_app. split; [exact Hold |].
    apply Forall_forall. intros x Hx. apply list_elem_of_filter in Hx as [_ Hx].
    revert x Hx. apply Forall_forall. exact Hpic. }
  destruct (save_wallpaper_ids_to_file_spec pic_ids filename w) as (w1 & Hrun1 & Hfs1).
  simpl in Hfs1. rewrite Hcontent, (loaded_ids_ledger_lines _ Hold) in Hfs1.
  rewrite filter_not_loaded, <- ledger_lines_app in Hfs1.
  assert (Hfile1 : fs w1 !! filename
                   = Some (ledger_lines (old_ids ++ filter (fun x => x ∉ old_ids) pic_ids))).
  { rewrite Hfs1. apply lookup_insert_eq. }
  assert (Hknown : forall x, x ∈ pic_ids ->
                     x ∈ old_ids ++ filter (fun x => x ∉ old_ids) pic_ids).
  { intros x Hx. apply elem_of_app. destruct (decide (x ∈ old_ids)); [now left | right].
    apply list_elem_of_filter. split; assumption. }
  destruct (save_wallpaper_ids_to_file_spec pic_ids filename w1) as (w2 & Hrun2 & Hfs2).
  simpl in Hfs2. rewrite Hfile1 in Hfs2. simpl in Hfs2.
  rewrite (loaded_ids_ledger_lines _ Hnew), filter_not_loaded in Hfs2.
  rewrite (filter_all_known _ _ Hknown) in Hfs2. simpl in Hfs2.
  rewrite string_app_nil_r in Hfs2.
  exists w1, w2. split; [exact Hrun1 |]. split; [exact Hfile1 |]. split.
  - intros x Hx. rewrite (loaded_ids_ledger_lines _ Hnew).
    apply elem_of_list_to_set. apply Hknown, Hx.
  - split; [exact Hrun2 |]. rewrite Hfs2. apply insert_id. exact Hfile1.
Qed.

Lemma save_wallpaper_ids_to_file_second_run_is_idle_witness :
  exists w1 w2,
    save_wallpaper_ids_to_file ["zyxw21"; "o5wq39"; "o5wq39"] "wallpaper_ids.txt" world_ledger
      = (Ok tt, w1)
    /\ fs w1 !! "wallpaper_ids.txt"
       = Some (ledger_lines (["5gqdq1"; "zyxw21"]
                 ++ filter (fun x => x ∉ ["5gqdq1"; "zyxw21"]) ["zyxw21"; "o5wq39"; "o5wq39"]))
    /\ (forall x, x ∈ ["zyxw21"; "o5wq39"; "o5wq39"] ->
          x ∈ loaded_ids (ledger_lines (["5gqdq1"; "zyxw21"]
                 ++ filter (fun x => x ∉ ["5gqdq1"; "zyxw21"]) ["zyxw21"; "o5wq39"; "o5wq39"])))
    /\ save_wallpaper_ids_to_file ["zyxw21"; "o5wq39"; "o5wq39"] "wallpaper_ids.txt" w1
       = (Ok tt, w2)
    /\ fs w2 = fs w1.
Proof.
  apply (save_wallpaper_ids_to_file_second_run_is_idle
           ["zyxw21"; "o5wq39"; "o5wq39"] ["5gqdq1"; "zyxw21"] "wallpaper_ids.txt"
           world_ledger).
  - repeat constructor.
  - repeat constructor.
  - left. reflexivity.
Defined.

(** X11: an identifier with white space at its start or end is never
    found in the ledger, whatever the file holds, because the lines are
    stripped when loaded and the identifier is not: every run appends it
    again. *)
Theorem save_wallpaper_ids_to_file_padded_id_appended
    (wallpaper_id filename : string) (w : world) :
  strip wallpaper_id <> wallpaper_id ->
  exists w',
    save_wallpaper_ids_to_file [wallpaper_id] filename w = (Ok tt, w')
    /\ fs w' !! filename
       = Some (default "" (fs w !! filename)
               +:+ (wallpaper_id +:+ String "010" EmptyString)).
Proof.
  intros Hpad.
  destruct (save_wallpaper_ids_to_file_spec [wallpaper_id] filename w) as (w' & Hrun & Hfs).
  simpl in Hfs. exists w'. split; [exact Hrun |].
  rewrite Hfs, lookup_insert_eq. f_equal. f_equal.
  rewrite filter_cons. destruct (decide (wallpaper_id ∉ loaded_ids (default "" (fs w !! filename))))
    as [_ | Hin].
  - simpl. now rewrite string_app_nil_r.
  - exfalso. apply Hpad. eapply loaded_ids_stripped. apply dec_stable in Hin. exact Hin.
Qed.

Lemma save_wallpaper_ids_to_file_padded_id_appended_witness :
  exists w',
    save_wallpaper_ids_to_file ["5gqdq1 "] "wallpaper_ids.txt" world_ledger = (Ok tt, w')
    /\ fs w' !! "wallpaper_ids.txt"
       = Some (default "" (fs world_ledger !! "wallpaper_ids.txt")
               +:+ ("5gqdq1 " +:+ String "010" EmptyString)).
Proof.
  apply (save_wallpaper_ids_to_file_padded_id_appended "5gqdq1 " "wallpaper_ids.txt"
           world_ledger).
  vm_compute. discriminate.
Defined.

Lemma fetch_wallpaper_ids_single_answered_witness :
  fetch_wallpaper_ids_single "https://wallhaven.cc/api/v1/search?apikey=k"
    {[ "q" := Scalar "like:5gqdq1" ]} world_three_pages
  = (Ok ["5gqdq1"; "zyxw21"],
     advance world_three_pages 1
       [EvRequest (mkRequest "https://wallhaven.cc/api/v1/search?apikey=k"
                     (Some {[ "q" := Scalar "like:5gqdq1" ]}) (Some proxies) false);
        EvLog INFO MsgIdsFetched]).
Proof.
  apply (fetch_wallpaper_ids_single_answered
           "https://wallhaven.cc/api/v1/search?apikey=k" {[ "q" := Scalar "like:5gqdq1" ]}
           (response_of_page 0) world_three_pages).
  reflexivity.
Defined.

Lemma fetch_wallpaper_ids_paginated_collects_pages_witness :
  exists pic_ids w',
    fetch_wallpaper_ids_paginated "https://wallhaven.cc/api/v1/search?apikey=k"
      {[ "q" := Scalar "like:5gqdq1" ]} 1 3 world_three_pages = (Ok pic_ids, w')
    /\ pic_ids = ["5gqdq1"; "zyxw21"; "zyxw21"; "o5wq39"]
    /\ sleeps (trace w') = repeat (Uniform (12 # 10) (15 # 10)) 3.
Proof.
  destruct (fetch_wallpaper_ids_paginated_collects_pages
              "https://wallhaven.cc/api/v1/search?apikey=k"
              {[ "q" := Scalar "like:5gqdq1" ]} 1 3
              response_of_page ids_of_page world_three_pages ltac:(lia))
    as (pic_ids & w' & Hrun & Hids & _ & _ & _ & Hsleeps & _).
  - intros i Hi. change (Z.to_nat (3 + 1 - 1)) with 3%nat in Hi.
    destruct i as [| [| [| i]]]; try lia; split; try reflexivity;
      intros Hstatus; try reflexivity; discriminate Hstatus.
  - exists pic_ids, w'. split; [exact Hrun |]. split; [exact Hids | exact Hsleeps].
Defined.

Lemma fetch_wallpaper_ids_paginated_empty_range_witness :
  fetch_wallpaper_ids_paginated "https://wallhaven.cc/api/v1/search?apikey=k"
    {[ "q" := Scalar "like:5gqdq1" ]} 3 1 world_three_pages
  = (Ok [], world_three_pages).
Proof.
  apply (fetch_wallpaper_ids_paginated_empty_range
           "https://wallhaven.cc/api/v1/search?apikey=k"
           {[ "q" := Scalar "like:5gqdq1" ]} 3 1 world_three_pages).
  lia.
Defined.

(** X12: whichever mode [get_wallpaper_ids] chooses, every request it
    sends goes to the search address that ends in the API key, carries
    the proxies and some parameters and is not streamed; besides requests
    it only logs and sleeps, and it touches no file.  When [kwargs] lacks
    [start_page] or lacks [end_page], the bound that is given is ignored
    and the call is the single-shot one, with the caller's parameters. *)
Theorem get_wallpaper_ids_confined
    (api_key : string) (_params : gmap string pvalue) (kwargs : gmap string Z) :
  confined (collector_event ("https://wallhaven.cc/api/v1/search?apikey=" +:+ api_key))
    no_path (get_wallpaper_ids api_key _params kwargs)
  /\ (kwargs !! "start_page" = None \/ kwargs !! "end_page" = None ->
      get_wallpaper_ids api_key _params kwargs
      = fetch_wallpaper_ids_single
          ("https://wallhaven.cc/api/v1/search?apikey=" +:+ api_key) _params).
Proof.
  unfold get_wallpaper_ids. split.
  - destruct (kwargs !! "start_page"), (kwargs !! "end_page");
      try apply confined_fetch_wallpaper_ids_single.
    apply confined_fetch_pages.
  - intros [-> | ->]; [reflexivity |]. destruct (kwargs !! "start_page"); reflexivity.
Qed.

Lemma get_wallpaper_ids_confined_witness :
  get_wallpaper_ids "k" {[ "q" := Scalar "like:5gqdq1" ]} {[ "end_page" := 3 ]}
  = fetch_wallpaper_ids_single "https://wallhaven.cc/api/v1/search?apikey=k"
      {[ "q" := Scalar "like:5gqdq1" ]}.
Proof.
  destruct (get_wallpaper_ids_confined "k" {[ "q" := Scalar "like:5gqdq1" ]}
              {[ "end_page" := 3 ]}) as [_ Hsingle].
  apply Hsingle. left. reflexivity.
Defined.

(** X13: when the detail request is answered by status 200 and reading
    the path out of the body raises an exception that is not a
    [RequestException] (a [KeyError] for a body without [path], say),
    the resolver does not catch it: the exception leaves
    [get_wallpaper_details], and nothing is printed or logged. *)
Theorem get_wallpaper_details_body_error_uncaught
    (pic_id : string) (r : Response) (e : exn) (w : world) :
  net w (calls w) (mkRequest ("https://wallhaven.cc/api/v1/w/" +:+ pic_id) None None false)
    = Responds r ->
  status_code r = 200 ->
  json_path r = Undecodable e ->
  is_RequestException e = false ->
  get_wallpaper_details pic_id w
  = (Raise e,
     advance w 1
       [EvRequest (mkRequest ("https://wallhaven.cc/api/v1/w/" +:+ pic_id) None None false)]).
Proof.
  intros Hnet H200 Hbody Hexn. rewrite get_wallpaper_details_spec.
  unfold detail_request. rewrite Hnet, H200, Hbody, Hexn. reflexivity.
Qed.

Lemma get_wallpaper_details_body_error_uncaught_witness :
  get_wallpaper_details "5gqdq1" world_three_pages
  = (Raise (KeyError "path"),
     advance world_three_pages 1
       [EvRequest (mkRequest ("https://wallhaven.cc/api/v1/w/" +:+ "5gqdq1") None None false)]).
Proof.
  apply (get_wallpaper_details_body_error_uncaught "5gqdq1" (response_of_page 0)
           (KeyError "path") world_three_pages); reflexivity.
Defined.

(** X14: a streamed download answered by an accepted response whose
    status is not 200 logs the failure at error level and returns; it
    creates no file and changes none. *)
Theorem download_image_other_status
    (image_url filename : string) (r : Response) (w w1 : world) :
  make_request image_url None true w = (Ok (Some r), w1) ->
  status_code r <> 200 ->
  download_image image_url filename w
  = (Ok tt, advance w1 0 [EvLog ERROR (MsgDownloadFailed image_url)])
  /\ fs (advance w1 0 [EvLog ERROR (MsgDownloadFailed image_url)]) = fs w.
Proof.
  intros Hreq Hne. split.
  - unfold download_image. rewrite (bind_ok _ _ _ _ _ Hreq).
    simpl attr_status_code. unfold bind at 1. unfold ret at 1.
    apply Z.eqb_neq in Hne. rewrite Hne. reflexivity.
  - simpl. apply map_eq. intros p.
    destruct (confined_make_request image_url None true w) as (_ & _ & _ & Hfs).
    rewrite Hreq in Hfs. apply Hfs. intros [].
Qed.

Lemma download_image_other_status_witness :
  download_image "https://w.wallhaven.cc/full/5g/wallhaven-5gqdq1.jpg"
    "general/wallhaven-5gqdq1.jpg" world_no_content
  = (Ok tt,
     advance (snd (make_request "https://w.wallhaven.cc/full/5g/wallhaven-5gqdq1.jpg"
                     None true world_no_content)) 0
       [EvLog ERROR (MsgDownloadFailed "https://w.wallhaven.cc/full/5g/wallhaven-5gqdq1.jpg")]).
Proof.
  apply (download_image_other_status
           "https://w.wallhaven.cc/full/5g/wallhaven-5gqdq1.jpg"
           "general/wallhaven-5gqdq1.jpg" (response_of_page 1) world_no_content).
  - vm_compute. reflexivity.
  - vm_compute. discriminate.
Defined.

(** X15: whatever the service does, [download_image] sends only streamed
    requests for the location it was given, with the proxies and no
    parameters; besides requests it only logs and sleeps, and the only
    path it creates or changes is its destination. *)
Theorem download_image_confined (image_url filename : string) :
  confined (executor_event image_url None true) (fun p => p = filename)
    (download_image image_url filename).
Proof. apply confined_download_image. Qed.

Section Destination_name.

Lemma split_on_pieces (sep : ascii) (s : string) :
  split_on sep s <> []
  /\ Forall (fun piece => string_existsb (Ascii.eqb sep) piece = false) (split_on sep s).
Proof.
  induction s as [| c s [Hne IH]].
  - split; [discriminate | repeat constructor].
  - simpl. destruct (Ascii.eqb c sep) eqn:Ec.
    + split; [discriminate |]. constructor; [reflexivity | exact IH].
    + destruct (split_on sep s) as [| h t]; [contradiction |].
      split; [discriminate |]. inversion IH as [| ? ? Hh Ht]; subst.
      constructor; [| exact Ht].
      change (string_existsb (Ascii.eqb sep) (String c h))
        with (Ascii.eqb sep c || string_existsb (Ascii.eqb sep) h).
      rewrite (Ascii.eqb_sym sep c), Ec, Hh. reflexivity.
Qed.

Lemma last_item_in (l : list string) : l <> [] -> last_item l ∈ l.
Proof.
  unfold last_item. induction l as [| x [| y l] IH]; intros Hne.
  - contradiction.
  - now left.
  - right. apply IH. discriminate.
Qed.

Lemma last_segment_slash_free (original_image_url : string) :
  string_existsb (Ascii.eqb "/") (last_item (split_on "/" original_image_url)) = false.
Proof.
  destruct (split_on_pieces "/" original_image_url) as [Hne Hall].
  eapply Forall_forall in Hall; [exact Hall |]. now apply last_item_in.
Qed.

Lemma confined_main_slash_free (pic_id directory : string) :
  confined (unit_event pic_id)
    (fun p => exists name,
       string_existsb (Ascii.eqb "/") name = false /\ p = os_path_join directory name)
    (main pic_id directory).
Proof.
  unfold main, log_and_print.
  apply confined_bind.
  { eapply confined_weaken; [| | apply confined_get_wallpaper_details];
      [auto | intros p []]. }
  intros [original_image_url |]; [| apply confined_emit; exact I].
  destruct (String.eqb original_image_url ""); [apply confined_emit; exact I |].
  apply confined_bind; [apply confined_emit; exact I | intros _].
  apply confined_bind; [apply confined_os_path_exists | intros present].
  destruct present; [apply confined_emit; exact I |].
  eapply confined_weaken; [| | apply confined_download_image].
  - apply executor_event_unit.
  - intros p ->. eexists. split; [apply last_segment_slash_free | reflexivity].
Qed.

End Destination_name.

Section Unit_of_work.

Variables (pic_id directory : string).

Lemma download_image_ok (image_url filename : string) (r : Response) (w w1 : world) :
  make_request image_url None true w = (Ok (Some r), w1) ->
  status_code r = 200 ->
  download_image image_url filename w =
    (Ok tt,
     mkWorld (net w1) (calls w1) (<[filename := body r]> (fs w1))
       (trace w1 ++ [EvLog INFO (MsgImageSaved filename
                                   (format_2f (mib (default 0 (content_length r)))))])).
Proof.
  intros Hreq H200. unfold download_image. rewrite (bind_ok _ _ _ _ _ Hreq).
  simpl attr_status_code. unfold bind at 1. unfold ret at 1.
  rewrite H200. change (200 =? 200) with true. cbv iota.
  unfold bind at 1. unfold open_truncate, set_file.
  unfold bind at 1.
  rewrite (write_chunks_spec filename (iter_content 1024 (body r)) _ "")
    by (simpl; apply lookup_insert_eq).
  simpl. rewrite insert_insert_eq, iter_content_joined by lia.
  reflexivity.
Qed.

Lemma get_wallpaper_details_frame (w : world) :
  fs (snd (get_wallpaper_details pic_id w)) = fs w
  /\ net (snd (get_wallpaper_details pic_id w)) = net w.
Proof.
  rewrite get_wallpaper_details_spec.
  destruct (net w (calls w) (detail_request pic_id)) as [r | e].
  - destruct (status_code r =? 200).
    + destruct (json_path r) as [p | e]; [split; reflexivity |].
      destruct (is_RequestException e); split; reflexivity.
    + destruct ((400 <=? status_code r) && (status_code r <? 600)); split; reflexivity.
  - destruct (is_RequestException e); split; reflexivity.
Qed.

(** What [main] does once the resolver has given a location. *)
Lemma main_resolved (original_image_url : string) (w w1 : world) :
  get_wallpaper_details pic_id w = (Ok (Some original_image_url), w1) ->
  original_image_url <> "" ->
  main pic_id directory w =
  let w2 := advance w1 0 [EvLog INFO (MsgOriginalUrl original_image_url)] in
  if bool_decide (is_Some (fs w1 !! destination directory original_image_url)) then
    (Ok tt, advance w2 0
              [EvLog INFO (MsgImageExists (last_item (split_on "/" original_image_url)))])
  else download_image original_image_url (destination directory original_image_url) w2.
Proof.
  intros Hdetail Hne. unfold main. rewrite (bind_ok _ _ _ _ _ Hdetail).
  apply String.eqb_neq in Hne. rewrite Hne.
  unfold log_and_print. rewrite (bind_ok _ _ _ _ _ (emit_advance _ _)).
  unfold bind, os_path_exists. simpl. fold (destination directory original_image_url).
  destruct (bool_decide (is_Some (fs w1 !! destination directory original_image_url)));
    reflexivity.
Qed.

(** X16: when the resolver gives nothing, or gives an empty location,
    [main] logs at error level that it has no location and returns: no
    further request is made and no file is touched. *)
Theorem main_unresolved (o : option string) (w w1 : world) :
  get_wallpaper_details pic_id w = (Ok o, w1) ->
  o = None \/ o = Some "" ->
  main pic_id directory w = (Ok tt, advance w1 0 [EvLog ERROR MsgNoOriginalUrl])
  /\ fs (advance w1 0 [EvLog ERROR MsgNoOriginalUrl]) = fs w
  /\ calls (advance w1 0 [EvLog ERROR MsgNoOriginalUrl]) = calls w1.
Proof.
  intros Hdetail Ho. split; [| split; [| reflexivity]].
  - unfold main. rewrite (bind_ok _ _ _ _ _ Hdetail).
    destruct Ho as [-> | ->]; reflexivity.
  - simpl. destruct (get_wallpaper_details_frame w) as [Hfs _].
    rewrite Hdetail in Hfs. exact Hfs.
Qed.

Lemma main_preserves_files (w : world) (p content : string) :
  fs w !! p = Some content ->
  fs (snd (main pic_id directory w)) !! p = Some content.
Proof.
  intros Hp.
  destruct (get_wallpaper_details_frame w) as [Hfs _].
  unfold main. unfold bind at 1.
  destruct (get_wallpaper_details pic_id w) as [[[original_image_url |] | e] w1];
    simpl in Hfs; try (simpl; rewrite Hfs; exact Hp).
  destruct (String.eqb original_image_url ""); [simpl; rewrite Hfs; exact Hp |].
  unfold log_and_print. rewrite (bind_ok _ _ _ _ _ (emit_advance _ _)).
  unfold bind at 1. unfold os_path_exists. simpl fs.
  set (path := os_path_join directory (last_item (split_on "/" original_image_url))).
  destruct (bool_decide (is_Some (fs w1 !! path))) eqn:Epresent.
  - simpl. rewrite Hfs. exact Hp.
  - apply bool_decide_eq_false in Epresent.
    destruct (confined_download_image original_image_url path
                (advance w1 0 [EvLog INFO (MsgOriginalUrl original_image_url)]))
      as (_ & _ & _ & Hframe).
    rewrite Hframe; [simpl; rewrite Hfs; exact Hp |].
    intros ->. apply Epresent. rewrite Hfs. eexists. exact Hp.
Qed.

(** X17: [main] never changes or removes a file that exists when it
    starts, whatever the service answers: it writes only to a destination
    at which no file is. *)
Theorem main_keeps_existing_files (w : world) (p content : string) :
  fs w !! p = Some content ->
  fs (snd (main pic_id directory w)) !! p = Some content.
Proof. apply main_preserves_files. Qed.

(** X18: whatever the service does, the only requests [main] sends are
    the detail request for its identifier, without proxies, and streamed
    requests that carry the proxies and no parameters; besides requests
    it only logs, prints and sleeps, and every path it creates or changes
    is [os.path.join] of the directory and a name that holds no slash. *)
Theorem main_confined :
  confined (unit_event pic_id)
    (fun p => exists name,
       string_existsb (Ascii.eqb "/") name = false /\ p = os_path_join directory name)
    (main pic_id directory).
Proof. apply confined_main_slash_free. Qed.

(** With the posix join, a path outside the directory is not among the
    paths [main] may create or change. *)
Example main_paths_exclude_other_directory :
  ~ exists name,
      string_existsb (Ascii.eqb "/") name = false
      /\ "/etc/passwd" = os_path_join "general" name.
Proof.
  intros (name & Hfree & Hpath). unfold os_path_join in Hpath.
  destruct (startswith_char "/" name) eqn:Hstart.
  - destruct name as [| c name]; [discriminate Hstart |].
    simpl in Hstart.
    change (string_existsb (Ascii.eqb "/") (String c name))
      with (Ascii.eqb "/" c || string_existsb (Ascii.eqb "/") name) in Hfree.
    rewrite (Ascii.eqb_sym "/" c), Hstart in Hfree. discriminate Hfree.
  - cbv in Hpath. discriminate Hpath.
Qed.

(** X19: an identifier that resolves to a location whose destination is
    free, and whose streamed request is answered by status 200.  [main]
    stores the body at the destination; a second [main] for the same
    identifier, when it resolves to the same location, finds the file,
    makes no request after the resolver's and leaves every file as it
    is. *)
Theorem main_downloads_once
    (original_image_url : string) (r : Response) (w w1 w2 : world) :
  get_wallpaper_details pic_id w = (Ok (Some original_image_url), w1) ->
  original_image_url <> "" ->
  fs w1 !! destination directory original_image_url = None ->
  make_request original_image_url None true
    (advance w1 0 [EvLog INFO (MsgOriginalUrl original_image_url)]) = (Ok (Some r), w2) ->
  status_code r = 200 ->
  exists w3,
    main pic_id directory w = (Ok tt, w3)
    /\ fs w3 = <[destination directory original_image_url := body r]> (fs w)
    /\ forall w4,
         get_wallpaper_details pic_id w3 = (Ok (Some original_image_url), w4) ->
         exists w5,
           main pic_id directory w3 = (Ok tt, w5)
           /\ calls w5 = calls w4
           /\ fs w5 = fs w3.
Proof.
  intros Hdetail Hne Hfree Hreq H200.
  pose proof (main_resolved original_image_url w w1 Hdetail Hne) as Hmain.
  cbv zeta in Hmain. rewrite Hfree in Hmain.
  rewrite bool_decide_eq_false_2 in Hmain by (intros [? ?]; discriminate).
  rewrite (download_image_ok _ _ _ _ _ Hreq H200) in Hmain.
  eexists. split; [exact Hmain |].
  assert (Hfs2 : fs w2 = fs w).
  { apply map_eq. intros p.
    destruct (confined_make_request original_image_url None true
                (advance w1 0 [EvLog INFO (MsgOriginalUrl original_image_url)]))
      as (_ & _ & _ & Hf).
    rewrite Hreq in Hf. simpl in Hf. rewrite Hf by (intros []).
    destruct (get_wallpaper_details_frame w) as [Hf1 _]. rewrite Hdetail in Hf1.
    simpl in Hf1. now rewrite Hf1. }
  split; [simpl; now rewrite Hfs2 |].
  intros w4 Hdetail'.
  pose proof (main_resolved original_image_url _ w4 Hdetail' Hne) as Hmain'.
  cbv zeta in Hmain'.
  assert (Hfs4 : fs w4 = <[destination directory original_image_url := body r]> (fs w2)).
  { match type of Hdetail' with
    | get_wallpaper_details _ ?w3 = _ =>
        destruct (get_wallpaper_details_frame w3) as [Hf4 _]
    end.
    rewrite Hdetail' in Hf4. exact Hf4. }
  rewrite Hfs4, lookup_insert_eq in Hmain'.
  rewrite bool_decide_eq_true_2 in Hmain' by (eexists; reflexivity).
  eexists. split; [exact Hmain' |]. split; [reflexivity |].
  simpl. exact Hfs4.
Qed.

End Unit_of_work.

Lemma main_unresolved_witness :
  main "5gqdq1" "general" world_unreachable
  = (Ok tt,
     advance (snd (get_wallpaper_details "5gqdq1" world_unreachable)) 0
       [EvLog ERROR MsgNoOriginalUrl]).
Proof.
  destruct (main_unresolved "5gqdq1" "general" None world_unreachable
              (snd (get_wallpaper_details "5gqdq1" world_unreachable)))
    as [Hrun _].
  - vm_compute. reflexivity.
  - left. reflexivity.
  - exact Hrun.
Defined.

Lemma main_keeps_existing_files_witness :
  fs (snd (main "5gqdq1" "general" world_pipeline_other)) !! "general/other.jpg"
  = Some "other bytes"
  /\ fs (snd (main "5gqdq1" "general" world_pipeline_other)) !! "general/wallhaven-5gqdq1.jpg"
     = Some "abc".
Proof.
  split.
  - apply (main_keeps_existing_files "5gqdq1" "general" world_pipeline_other
             "general/other.jpg" "other bytes").
    reflexivity.
  - vm_compute. reflexivity.
Defined.

Lemma main_downloads_once_witness :
  exists w3,
    main "5gqdq1" "general" world_pipeline = (Ok tt, w3)
    /\ fs w3 = <[destination "general" "https://w.wallhaven.cc/full/5g/wallhaven-5gqdq1.jpg"
                 := "abc"]> (fs world_pipeline)
    /\ forall w4,
         get_wallpaper_details "5gqdq1" w3
         = (Ok (Some "https://w.wallhaven.cc/full/5g/wallhaven-5gqdq1.jpg"), w4) ->
         exists w5,
           main "5gqdq1" "general" w3 = (Ok tt, w5)
           /\ calls w5 = calls w4
           /\ fs w5 = fs w3.
Proof.
  apply (main_downloads_once "5gqdq1" "general"
           "https://w.wallhaven.cc/full/5g/wallhaven-5gqdq1.jpg"
           response_image_no_length world_pipeline
           (snd (get_wallpaper_details "5gqdq1" world_pipeline))
           (snd (make_request "https://w.wallhaven.cc/full/5g/wallhaven-5gqdq1.jpg" None true
                   (advance (snd (get_wallpaper_details "5gqdq1" world_pipeline)) 0
                      [EvLog INFO (MsgOriginalUrl
                                     "https://w.wallhaven.cc/full/5g/wallhaven-5gqdq1.jpg")])))).
  - vm_compute. reflexivity.
  - discriminate.
  - vm_compute. reflexivity.
  - vm_compute. reflexivity.
  - reflexivity.
Defined.

Section Parser_shape.

(** X22: every value in the mapping [parse_url_params] returns is a
    non-empty string, or a sequence of at least two non-empty strings;
    the parser never yields an empty value, an empty sequence, a sequence
    of one element or an integer. *)
Theorem parse_url_params_values (_url : string) (m : gmap string pvalue)
    (k : string) (v : pvalue) :
  parse_url_params _url = Ok m ->
  m !! k = Some v ->
  match v with
  | Scalar s => s <> ""
  | Sequence l => (2 <= length l)%nat /\ Forall (fun s => s <> "") l
  | IntVal _ => False
  end.
Proof.
  intros Hparse Hk. unfold parse_url_params in Hparse.
  destruct (urlparse_query _url) as [qs | e] eqn:Hq; [| discriminate].
  destruct (parse_url_params_lookup _url qs k Hq) as (m' & Hm' & Hlookup).
  unfold parse_url_params in Hm'. rewrite Hq in Hm'.
  rewrite Hm' in Hparse. injection Hparse as <-.
  rewrite Hk in Hlookup.
  assert (Hall : Forall (fun s => s <> "") (filter (fun v => v <> "") (occurrences k qs))).
  { apply Forall_forall. intros x Hx. now apply list_elem_of_filter in Hx as [Hx _]. }
  destruct (filter (fun v => v <> "") (occurrences k qs)) as [| a [| b l]];
    [discriminate | |]; injection Hlookup as ->.
  - now inversion Hall.
  - split; [simpl; lia | exact Hall].
Qed.

Lemma parse_url_params_values_witness :
  match Sequence ["1"; "2"] with
  | Scalar s => s <> ""
  | Sequence l => (2 <= length l)%nat /\ Forall (fun s => s <> "") l
  | IntVal _ => False
  end.
Proof.
  apply (parse_url_params_values "https://wallhaven.cc/search?a=1&a=&a=2"
           {[ "a" := Sequence ["1"; "2"] ]} "a").
  - vm_compute. reflexivity.
  - reflexivity.
Defined.

Lemma split_first_free (p : ascii -> bool) (c : ascii) (s : string) :
  string_existsb p s = false ->
  string_existsb p (fst (split_first c s)) = false
  /\ forall after, snd (split_first c s) = Some after -> string_existsb p after = false.
Proof.
  induction s as [| c' s IH]; intros Hfree.
  - split; [reflexivity | discriminate].
  - simpl in Hfree. apply orb_false_iff in Hfree as [Hc Hs].
    simpl. destruct (Ascii.eqb c' c).
    + split; [reflexivity |]. intros after [= <-]. exact Hs.
    + destruct (IH Hs) as [Hfst Hsnd]. destruct (split_first c s) as [before o].
      simpl in *. rewrite Hc. split; [exact Hfst | exact Hsnd].
Qed.

Lemma split_first_before_free (c : ascii) (s : string) :
  string_existsb (Ascii.eqb c) (fst (split_first c s)) = false.
Proof.
  induction s as [| c' s IH]; [reflexivity |].
  simpl. destruct (Ascii.eqb c' c) eqn:Ec; [reflexivity |].
  destruct (split_first c s) as [before o]. simpl in *.
  rewrite (Ascii.eqb_sym c c'), Ec. exact IH.
Qed.

(** X23: the query string [urlparse] hands to [parse_qs] never holds a
    hash: what follows the first hash of a link is its fragment and no
    parameter is read from it. *)
Theorem urlparse_query_has_no_fragment (_url qs : string) :
  urlparse_query _url = Ok qs ->
  string_existsb (Ascii.eqb "#") qs = false.
Proof.
  unfold urlparse_query.
  set (url := strip_scheme (remove_unsafe (lstrip_c0 _url))).
  destruct (match url with
            | String "/" (String "/" rest) => splitnetloc rest
            | _ => (EmptyString, url)
            end) as [netloc rest].
  destruct (string_existsb (Ascii.eqb "[") netloc && negb (string_existsb (Ascii.eqb "]") netloc)
            || string_existsb (Ascii.eqb "]") netloc && negb (string_existsb (Ascii.eqb "[") netloc));
    [discriminate |].
  pose proof (split_first_before_free "#" rest) as Hfree.
  destruct (split_first "#" rest) as [before fragment]. simpl in Hfree.
  destruct (split_first_free (Ascii.eqb "#") "?" before Hfree) as [_ Hquery].
  destruct (split_first "?" before) as [path [query |]]; intros [= <-].
  - apply Hquery. reflexivity.
  - reflexivity.
Qed.

Lemma urlparse_query_has_no_fragment_witness :
  urlparse_query "https://wallhaven.cc/search?q=like%3A5gqdq1#page=3&x?y=1"
    = Ok "q=like%3A5gqdq1"
  /\ string_existsb (Ascii.eqb "#") "q=like%3A5gqdq1" = false.
Proof.
  split; [vm_compute; reflexivity |].
  apply (urlparse_query_has_no_fragment
           "https://wallhaven.cc/search?q=like%3A5gqdq1#page=3&x?y=1").
  vm_compute. reflexivity.
Defined.

Lemma remove_unsafe_host (host : string) :
  string_forallb is_host_char host = true -> remove_unsafe host = host.
Proof.
  induction host as [| c host IH]; [reflexivity |].
  simpl. intros H. apply andb_true_iff in H as [Hc Hhost].
  unfold is_host_char in Hc. apply negb_true_iff in Hc.
  repeat (apply orb_false_iff in Hc as [Hc ?]).
  replace (is_unsafe_byte c) with false by (symmetry; assumption).
  now rewrite IH.
Qed.

Lemma splitnetloc_host (host : string) :
  string_forallb is_host_char host = true -> splitnetloc host = (host, EmptyString).
Proof.
  induction host as [| c host IH]; [reflexivity |].
  simpl. intros H. apply andb_true_iff in H as [Hc Hhost].
  unfold is_host_char in Hc. apply negb_true_iff in Hc.
  repeat (apply orb_false_iff in Hc as [Hc ?]).
  replace (Ascii.eqb c "/") with false by (symmetry; assumption).
  replace (Ascii.eqb c "?") with false by (symmetry; assumption).
  replace (Ascii.eqb c "#") with false by (symmetry; assumption).
  simpl. now rewrite IH.
Qed.

Lemma host_has_no_closing_bracket (host : string) :
  string_forallb is_host_char host = true ->
  string_existsb (Ascii.eqb "]") host = false.
Proof.
  induction host as [| c host IH]; [reflexivity |].
  change (string_forallb is_host_char (String c host))
    with (is_host_char c && string_forallb is_host_char host).
  change (string_existsb (Ascii.eqb "]") (String c host))
    with (Ascii.eqb "]" c || string_existsb (Ascii.eqb "]") host).
  intros H. apply andb_true_iff in H as [Hc Hhost].
  unfold is_host_char in Hc. apply negb_true_iff in Hc.
  repeat (apply orb_false_iff in Hc as [Hc ?]).
  rewrite (Ascii.eqb_sym "]" c).
  replace (Ascii.eqb c "]") with false by (symmetry; assumption).
  now apply IH.
Qed.

(** X24: a link whose host opens a square bracket and never closes it
    makes the parser raise [ValueError]; it does not give an empty
    mapping. *)
Theorem parse_url_params_unclosed_bracket (host : string) :
  string_forallb is_host_char host = true ->
  parse_url_params ("http://[" +:+ host) = Raise (ValueError "Invalid IPv6 URL").
Proof.
  intros Hhost. unfold parse_url_params, urlparse_query.
  change ("http://[" +:+ host)
    with (String "h" (String "t" (String "t" (String "p" (String ":"
           (String "/" (String "/" (String "[" host)))))))).
  simpl lstrip_c0. simpl remove_unsafe. rewrite (remove_unsafe_host host Hhost).
  unfold strip_scheme. simpl.
  rewrite (splitnetloc_host host Hhost). simpl.
  rewrite (host_has_no_closing_bracket host Hhost). reflexivity.
Qed.

Lemma parse_url_params_unclosed_bracket_witness :
  parse_url_params ("http://[" +:+ "::1") = Raise (ValueError "Invalid IPv6 URL").
Proof.
  apply (parse_url_params_unclosed_bracket "::1"). reflexivity.
Defined.

(** X25: the folder the script picks for a link.  It is [anime] exactly
    when the only non-empty value of [categories] in the link is [010],
    [people] exactly when it is [001], and [general] in every other
    case: no [categories], the value [100], any other value, or
    [categories] given twice. *)
Theorem pic_folder_of_link (_url qs : string) :
  urlparse_query _url = Ok qs ->
  exists m,
    parse_url_params _url = Ok m
    /\ pic_folder m =
       let given := filter (fun v => v <> "") (occurrences "categories" qs) in
       if decide (given = ["010"]) then "anime"
       else if decide (given = ["001"]) then "people"
       else "general".
Proof.
  intros Hq.
  destruct (parse_url_params_lookup _url qs "categories" Hq) as (m & Hm & Hlookup).
  exists m. split; [exact Hm |]. unfold pic_folder. rewrite Hlookup. cbv zeta.
  destruct (filter (fun v => v <> "") (occurrences "categories" qs)) as [| a [| b l]].
  - reflexivity.
  - unfold pvalue_is.
    destruct (String.eqb_spec a "100") as [-> | H100]; [reflexivity |].
    destruct (String.eqb_spec a "010") as [-> | H010]; [reflexivity |].
    destruct (String.eqb_spec a "001") as [-> | H001]; [reflexivity |].
    destruct (decide ([a] = ["010"])) as [[= ->] | _]; [contradiction |].
    destruct (decide ([a] = ["001"])) as [[= ->] | _]; [contradiction |].
    reflexivity.
  - destruct (decide (a :: b :: l = ["010"])) as [Heq | _]; [discriminate Heq |].
    destruct (decide (a :: b :: l = ["001"])) as [Heq | _]; [discriminate Heq |].
    reflexivity.
Qed.

Lemma pic_folder_of_link_witness :
  exists m,
    parse_url_params "https://wallhaven.cc/search?categories=010&categories=010" = Ok m
    /\ pic_folder m = "general".
Proof.
  destruct (pic_folder_of_link "https://wallhaven.cc/search?categories=010&categories=010"
              "categories=010&categories=010" ltac:(vm_compute; reflexivity))
    as (m & Hm & Hfolder).
  exists m. split; [exact Hm |]. rewrite Hfolder. reflexivity.
Defined.

End Parser_shape.

(** C4, the code at its failing input: the service answers the detail
    request by status 429 once and with the path from then on.  The
    resolver calls [requests.get] itself, once and without the proxies,
    prints the [HTTPError] and gives nothing; the same request sent
    through the executor, as the collector and the downloader send
    theirs, carries the proxies, is retried after 0.3 seconds and gives
    the path. *)
Theorem get_wallpaper_details_one_unproxied_call :
  get_wallpaper_details "5gqdq1" world_limited_once
  = (Ok None,
     advance world_limited_once 1
       [EvRequest (mkRequest "https://wallhaven.cc/api/v1/w/5gqdq1" None None false);
        EvPrint (MsgRequestFailed (HTTPError 429))])
  /\ make_request "https://wallhaven.cc/api/v1/w/5gqdq1" None false world_limited_once
     = (Ok (Some response_detail),
        advance world_limited_once 2
          [EvRequest (mkRequest "https://wallhaven.cc/api/v1/w/5gqdq1" None
                        (Some proxies) false);
           EvLog INFO (MsgRateLimited (backoff (3 # 10) 0));
           EvSleep (Seconds (backoff (3 # 10) 0));
           EvRequest (mkRequest "https://wallhaven.cc/api/v1/w/5gqdq1" None
                        (Some proxies) false)])
  /\ fst (get_wallpaper_details_via_executor "5gqdq1" world_limited_once)
     = Ok (Some "https://w.wallhaven.cc/full/5g/wallhaven-5gqdq1.jpg").
Proof. repeat split; vm_compute; reflexivity. Qed.

(** C10 fails where a parameter has an occurrence with an empty value and
    another with a value: the parameter is in the mapping, with the
    value. *)
Lemma parse_url_params_keeps_parameter_with_value :
  ~ omits_blank_parameters "https://wallhaven.cc/search?q=&q=1".
Proof.
  intros Hclaim.
  specialize (Hclaim "q=&q=1" {[ "q" := Scalar "1" ]} "q"
                ltac:(vm_compute; reflexivity) ltac:(vm_compute; reflexivity)).
  assert (Hin : "" ∈ occurrences "q" "q=&q=1") by (vm_compute; left).
  specialize (Hclaim Hin). vm_compute in Hclaim. discriminate Hclaim.
Qed.
